(** * SegmentClient (packages/core/src/analytics.ts)

    A shallow embedding of the analytics client: the readiness gate that
    defers plugin registration, the flush scheduler, the identity
    operations and the application-lifecycle tracker.

    The client is a mutable JavaScript object; here every method is a
    function from the object's state to its next state.  Calls that leave
    the object (plugin.configure, plugin.flush, timeline.process, the
    logger) are appended to the [effects] field, in call order, so that
    "what was called, with what, and in which order" can be stated. *)

From stdpp Require Import gmap strings list fin_maps.

#[local] Set Warnings "-register-all".
#[local] Open Scope Z_scope.

(** ** JSON values and objects *)

(** Leaves of a JSON object, plus JavaScript's [undefined], which an
    object literal such as [{ version: context?.app?.version }] can hold. *)
Inductive JsonValue :=
| JUndefined
| JNull
| JBool (b : bool)
| JNumber (n : Z)
| JString (s : string).

(** A JsonMap / UserTraits / GroupTraits object: keys are unique. *)
Abbreviation JsonMap := (gmap string JsonValue).

(** [...o] inside an object literal: spreading [undefined] adds nothing. *)
Definition spread (o : option JsonMap) : JsonMap := default ∅ o.

(** [{ ...a, ...b }]: keys of [b] win (stdpp's union is left-biased). *)
Definition spread2 (a b : option JsonMap) : JsonMap := spread b ∪ spread a.

(** [v] as a JSON string, [undefined] when absent. *)
Definition optString (v : option string) : JsonValue :=
  match v with Some s => JString s | None => JUndefined end.

(** ** Events *)

(** Modelled from the spec: events.ts is not among the sources.  Section 3
    describes an event as a tagged union over Track, Screen, Identify,
    Group and Alias with a kind-specific payload; each variant below holds
    exactly the arguments analytics.ts passes to the matching builder
    ([properties] and [groupTraits] may be [undefined]).  The identify
    variant is the object methods/identify.test.ts expects [process] to
    receive: [{ type: 'identify', traits }]. *)
Inductive SegmentEvent :=
| TrackEvent (event : string) (properties : option JsonMap)
| ScreenEvent (name : string) (properties : option JsonMap)
| IdentifyEvent (userTraits : JsonMap)
| GroupEvent (groupId : string) (groupTraits : option JsonMap)
| AliasEvent (anonymousId : string) (userId : option string) (newUserId : string).

Definition createTrackEvent (event : string) (properties : option JsonMap) :=
  TrackEvent event properties.
Definition createScreenEvent (name : string) (properties : option JsonMap) :=
  ScreenEvent name properties.
Definition createIdentifyEvent (userTraits : JsonMap) :=
  IdentifyEvent userTraits.
Definition createGroupEvent (groupId : string) (groupTraits : option JsonMap) :=
  GroupEvent groupId groupTraits.
Definition createAliasEvent (anonymousId : string) (userId : option string)
    (newUserId : string) :=
  AliasEvent anonymousId userId newUserId.

(** ** User info (store/userInfo.ts) *)

Record UserInfoState := {
  anonymousId : string;
  userId : option string;
  traits : option JsonMap
}.

Module userInfoSlice.
(** The reducers of the slice; [uuid] is the value [getUUID()] returns at
    that call. *)
Definition reset (uuid : string) (_ : UserInfoState) : UserInfoState :=
    {| anonymousId := uuid; userId := None; traits := None |}.
Definition setUserId (u : option string) (state : UserInfoState) :=
    {| anonymousId := anonymousId state; userId := u; traits := traits state |}.
Definition setTraits (t : option JsonMap) (state : UserInfoState) :=
    {| anonymousId := anonymousId state; userId := userId state;
       traits := Some (spread t) |}.
Definition setAnonymousId (a : string) (state : UserInfoState) :=
    {| anonymousId := a; userId := userId state; traits := traits state |}.
End userInfoSlice.

(** ** Context *)

(** The part of [Context] the client reads: the app section. *)
Record ContextApp := { version : string; build : string }.
Record Context := { app : ContextApp }.

(** [DeepPartial<Context>], the shape held by the store: every level may be
    missing. *)
Module Partial.
Record App := { version : option string; build : option string }.
Record Context := { app : option App }.
End Partial.

(** A full context seen at the store's type. *)
Definition asPartial (context : Context) : Partial.Context :=
  {| Partial.app := Some {| Partial.version := Some (version (app context));
                            Partial.build := Some (build (app context)) |} |}.

(** ** Plugins *)

Inductive PluginType := before | enrichment | utility | destination | after.

#[global] Instance PluginType_eq_dec : EqDecision PluginType.
Proof. solve_decision. Defined.

(** What a plugin's [flush()] does, as far as the client can tell: it may
    ask the client to flush again while it runs ([reenters] such requests),
    and it returns or throws. *)
Record FlushMethod := { reenters : nat; throws : bool }.

(** A plugin object.  [pid] stands for the object's identity.
    [onConfigure] lists the plugins that its [configure(client)] hands to
    [client.add({ plugin })], in order: a plugin receives the client and may
    call it back.  [flushMethod] is [None] for a plugin without [flush]. *)
Inductive Plugin := mkPlugin {
  pid : nat;
  type : PluginType;
  key : string;
  onConfigure : list Plugin;
  flushMethod : option FlushMethod
}.

(** ** Timeline *)

(** Modelled from the spec: timeline.ts is not among the sources.  Section
    3: "an ordered mapping from stage tag to an insertion-ordered list of
    Plugins"; section 4.1: "add(plugin): appends to the bucket matching the
    plugin's stage tag; ... no dedup inside Timeline". *)
Record Timeline := mkTimeline {
  beforePlugins : list Plugin;
  enrichmentPlugins : list Plugin;
  utilityPlugins : list Plugin;
  destinationPlugins : list Plugin;
  afterPlugins : list Plugin
}.

Module Timeline.
Definition empty : Timeline := mkTimeline [] [] [] [] [].

(** [timeline.plugins[ofType] ?? []] *)
Definition plugins (t : Timeline) (ofType : PluginType) : list Plugin :=
    match ofType with
    | before => beforePlugins t
    | enrichment => enrichmentPlugins t
    | utility => utilityPlugins t
    | destination => destinationPlugins t
    | after => afterPlugins t
    end.

Definition add (plugin : Plugin) (t : Timeline) : Timeline :=
    match type plugin with
    | before =>
        mkTimeline (beforePlugins t ++ [plugin]) (enrichmentPlugins t)
          (utilityPlugins t) (destinationPlugins t) (afterPlugins t)
    | enrichment =>
        mkTimeline (beforePlugins t) (enrichmentPlugins t ++ [plugin])
          (utilityPlugins t) (destinationPlugins t) (afterPlugins t)
    | utility =>
        mkTimeline (beforePlugins t) (enrichmentPlugins t)
          (utilityPlugins t ++ [plugin]) (destinationPlugins t) (afterPlugins t)
    | destination =>
        mkTimeline (beforePlugins t) (enrichmentPlugins t)
          (utilityPlugins t) (destinationPlugins t ++ [plugin]) (afterPlugins t)
    | after =>
        mkTimeline (beforePlugins t) (enrichmentPlugins t)
          (utilityPlugins t) (destinationPlugins t) (afterPlugins t ++ [plugin])
    end.

(** Modelled from the spec: section 4.1, "remove(plugin): removes by
    identity from its stage bucket; no-op if absent".  The entry that is
    that object is taken out of the bucket of its stage: the first one,
    should the plugin have been added more than once. *)
Fixpoint withoutPlugin (plugin : nat) (bucket : list Plugin) : list Plugin :=
    match bucket with
    | [] => []
    | q :: bucket =>
        if decide (pid q = plugin) then bucket
        else q :: withoutPlugin plugin bucket
    end.

Definition remove (plugin : Plugin) (t : Timeline) : Timeline :=
    match type plugin with
    | before =>
        mkTimeline (withoutPlugin (pid plugin) (beforePlugins t))
          (enrichmentPlugins t) (utilityPlugins t) (destinationPlugins t)
          (afterPlugins t)
    | enrichment =>
        mkTimeline (beforePlugins t)
          (withoutPlugin (pid plugin) (enrichmentPlugins t))
          (utilityPlugins t) (destinationPlugins t) (afterPlugins t)
    | utility =>
        mkTimeline (beforePlugins t) (enrichmentPlugins t)
          (withoutPlugin (pid plugin) (utilityPlugins t))
          (destinationPlugins t) (afterPlugins t)
    | destination =>
        mkTimeline (beforePlugins t) (enrichmentPlugins t) (utilityPlugins t)
          (withoutPlugin (pid plugin) (destinationPlugins t)) (afterPlugins t)
    | after =>
        mkTimeline (beforePlugins t) (enrichmentPlugins t) (utilityPlugins t)
          (destinationPlugins t) (withoutPlugin (pid plugin) (afterPlugins t))
    end.
End Timeline.

(** [getPlugins()] with no type: the buckets in stage order. *)
Definition allPlugins (t : Timeline) : list Plugin :=
  Timeline.plugins t before ++ Timeline.plugins t enrichment ++
  Timeline.plugins t utility ++ Timeline.plugins t destination ++
  Timeline.plugins t after.

Definition hasFlush (p : Plugin) : bool :=
  match flushMethod p with Some _ => true | None => false end.

(** Modelled from the spec: util.ts is not among the sources.  Section 4.1:
    "any plugin exposing a flush capability (typically destinations) can be
    enumerated"; the enumeration follows the stage order of [getPlugins]. *)
Definition getPluginsWithFlush (t : Timeline) : list Plugin :=
  filter (fun p => hasFlush p = true) (allPlugins t).

(** ** Configuration and storage *)

Record Config := {
  writeKey : string;
  flushAt : Z;
  flushInterval : Z;
  trackAppLifecycleEvents : bool;
  trackDeepLinks : bool;
  autoAddSegmentDestination : bool
}.

(** The slices of the injected [Storage] the client reads and writes;
    [get] is a projection, [set] replaces the slice. *)
Record Storage := {
  events : list SegmentEvent;
  userInfo : UserInfoState;
  context : option Partial.Context;
  settings : gmap string JsonMap
}.

Inductive AppStateStatus := active | background | inactive | unknown | extension.

#[global] Instance AppStateStatus_eq_dec : EqDecision AppStateStatus.
Proof. solve_decision. Defined.

(** ** Calls that leave the client *)

Inductive Effect :=
| Configure (plugin : nat)
    (** [plugin.configure(this)] on the plugin with that identity *)
| FlushPlugin (plugin : nat)
    (** [plugin.flush()] *)
| TimelineProcess (event : SegmentEvent) (info : UserInfoState)
    (** [timeline.process(applyRawEventData(event, info))], where [info] is
        what [store.userInfo.get()] returned at that moment *)
| LoggerInfo (message : string) (event : option SegmentEvent).

(** ** The client object *)

Record SegmentClient := mkClient {
  config : Config;
  store : Storage;
  secondsElapsed : Z;
  appState : AppStateStatus;
  appStateSubscription : bool;  (** the app-state listener is attached *)
  flushIntervalTimer : bool;    (** field [flushInterval]: the timer runs *)
  watchers : bool;              (** the store subscriptions are attached *)
  destroyed : bool;
  isPendingUpload : bool;
  isAddingPlugins : bool;
  timeline : Timeline;
  isStorageReady : bool;
  pluginsToAdd : list Plugin;
  isInitialized : bool;
  effects : list Effect
}.

(** Field updates ([this.x = v]). *)
Definition set_store (v : Storage) (c : SegmentClient) : SegmentClient :=
  mkClient (config c) v (secondsElapsed c) (appState c)
    (appStateSubscription c) (flushIntervalTimer c) (watchers c) (destroyed c)
    (isPendingUpload c) (isAddingPlugins c) (timeline c) (isStorageReady c)
    (pluginsToAdd c) (isInitialized c) (effects c).
Definition set_secondsElapsed (v : Z) (c : SegmentClient) : SegmentClient :=
  mkClient (config c) (store c) v (appState c)
    (appStateSubscription c) (flushIntervalTimer c) (watchers c) (destroyed c)
    (isPendingUpload c) (isAddingPlugins c) (timeline c) (isStorageReady c)
    (pluginsToAdd c) (isInitialized c) (effects c).
Definition set_appState (v : AppStateStatus) (c : SegmentClient) : SegmentClient :=
  mkClient (config c) (store c) (secondsElapsed c) v
    (appStateSubscription c) (flushIntervalTimer c) (watchers c) (destroyed c)
    (isPendingUpload c) (isAddingPlugins c) (timeline c) (isStorageReady c)
    (pluginsToAdd c) (isInitialized c) (effects c).
Definition set_isPendingUpload (v : bool) (c : SegmentClient) : SegmentClient :=
  mkClient (config c) (store c) (secondsElapsed c) (appState c)
    (appStateSubscription c) (flushIntervalTimer c) (watchers c) (destroyed c)
    v (isAddingPlugins c) (timeline c) (isStorageReady c)
    (pluginsToAdd c) (isInitialized c) (effects c).
Definition set_isAddingPlugins (v : bool) (c : SegmentClient) : SegmentClient :=
  mkClient (config c) (store c) (secondsElapsed c) (appState c)
    (appStateSubscription c) (flushIntervalTimer c) (watchers c) (destroyed c)
    (isPendingUpload c) v (timeline c) (isStorageReady c)
    (pluginsToAdd c) (isInitialized c) (effects c).
Definition set_timeline (v : Timeline) (c : SegmentClient) : SegmentClient :=
  mkClient (config c) (store c) (secondsElapsed c) (appState c)
    (appStateSubscription c) (flushIntervalTimer c) (watchers c) (destroyed c)
    (isPendingUpload c) (isAddingPlugins c) v (isStorageReady c)
    (pluginsToAdd c) (isInitialized c) (effects c).
Definition set_isStorageReady (v : bool) (c : SegmentClient) : SegmentClient :=
  mkClient (config c) (store c) (secondsElapsed c) (appState c)
    (appStateSubscription c) (flushIntervalTimer c) (watchers c) (destroyed c)
    (isPendingUpload c) (isAddingPlugins c) (timeline c) v
    (pluginsToAdd c) (isInitialized c) (effects c).
Definition set_pluginsToAdd (v : list Plugin) (c : SegmentClient) : SegmentClient :=
  mkClient (config c) (store c) (secondsElapsed c) (appState c)
    (appStateSubscription c) (flushIntervalTimer c) (watchers c) (destroyed c)
    (isPendingUpload c) (isAddingPlugins c) (timeline c) (isStorageReady c)
    v (isInitialized c) (effects c).
Definition set_effects (v : list Effect) (c : SegmentClient) : SegmentClient :=
  mkClient (config c) (store c) (secondsElapsed c) (appState c)
    (appStateSubscription c) (flushIntervalTimer c) (watchers c) (destroyed c)
    (isPendingUpload c) (isAddingPlugins c) (timeline c) (isStorageReady c)
    (pluginsToAdd c) (isInitialized c) v.

(** A call that leaves the client, recorded in call order. *)
Definition emit (e : Effect) (c : SegmentClient) : SegmentClient :=
  set_effects (effects c ++ [e]) c.

(** Store slices: [store.userInfo.get] and [set], [store.context.get] and
    [set], [store.settings.add]. *)
Definition userInfo_get (c : SegmentClient) : UserInfoState := userInfo (store c).
Definition context_get (c : SegmentClient) : option Partial.Context :=
  context (store c).
Definition userInfo_set (v : UserInfoState) (c : SegmentClient) : SegmentClient :=
  set_store {| events := events (store c); userInfo := v;
               context := context (store c); settings := settings (store c) |} c.
Definition context_set (v : Partial.Context) (c : SegmentClient) : SegmentClient :=
  set_store {| events := events (store c); userInfo := userInfo (store c);
               context := Some v; settings := settings (store c) |} c.
Definition settings_add (k : string) (v : JsonMap) (c : SegmentClient) : SegmentClient :=
  set_store {| events := events (store c); userInfo := userInfo (store c);
               context := context (store c);
               settings := <[k := v]> (settings (store c)) |} c.

(** ** Readiness gate: add, addPlugin, onStorageReady *)

(** The body of [add], given what [this.addPlugin] does. *)
Definition add_with (addPlugin : Plugin -> SegmentClient -> SegmentClient)
    (plugin : Plugin) (settings : option JsonMap) (c : SegmentClient)
    : SegmentClient :=
  let c :=
    match settings, type plugin with
    | Some s, destination => settings_add (key plugin) s c
    | _, _ => c
    end in
  if negb (isStorageReady c)
  then set_pluginsToAdd (pluginsToAdd c ++ [plugin]) c
  else addPlugin plugin c.

(** [addPlugin]: [plugin.configure(this)], during which the plugin makes
    its own [add] calls on the client, then [this.timeline.add(plugin)]. *)
Fixpoint addPlugin (plugin : Plugin) (c : SegmentClient) {struct plugin}
    : SegmentClient :=
  let c := emit (Configure (pid plugin)) c in
  let c := foldl (fun c q => add_with addPlugin q None c) c (onConfigure plugin) in
  set_timeline (Timeline.add plugin (timeline c)) c.

Definition add (plugin : Plugin) (settings : option JsonMap)
    (c : SegmentClient) : SegmentClient :=
  add_with addPlugin plugin settings c.

(** [unsubscribeReadinessWatcher]: [this.readinessWatcher?.()].  The field
    is declared [undefined] and never assigned, so the call does nothing. *)
Definition unsubscribeReadinessWatcher (c : SegmentClient) : SegmentClient := c.

(** [onStorageReady].  [Array.prototype.forEach] fixes the range of
    elements it visits before the first callback: plugins pushed onto
    [pluginsToAdd] while it runs are not visited.  Nothing else touches the
    array during the loop, so the loop runs over the array as it was on
    entry.  ([configure] is taken to return normally, so the [finally]
    block runs after the last statement of the [try] block.) *)
Definition onStorageReady (isReady : bool) (c : SegmentClient) : SegmentClient :=
  if isReady && (0 <? length (pluginsToAdd c))%nat && negb (isAddingPlugins c)
  then
    let c := set_isAddingPlugins true c in
    let c := foldl (fun c plugin => addPlugin plugin c) c (pluginsToAdd c) in
    let c := set_pluginsToAdd [] c in
    let c := set_isStorageReady true c in
    let c := unsubscribeReadinessWatcher c in
    set_isAddingPlugins false c
  else c.

(** The constructor.  [segmentDestination] and [injectContext] are the two
    plugin objects it instantiates ([new SegmentDestination()],
    [new InjectContext()]); their classes are outside the sources at hand,
    so the objects are parameters.  [platformPlugins] always holds
    [injectContext]. *)
Definition platformPlugins (injectContext : Plugin) (c : SegmentClient)
    : list Plugin :=
  [injectContext].

Definition new_SegmentClient (segmentDestination injectContext : Plugin)
    (config : Config) (store : Storage) : SegmentClient :=
  let c := mkClient config store 0 unknown false false false false false false
             Timeline.empty false [] false [] in
  let c := if autoAddSegmentDestination config
           then add segmentDestination None c else c in
  foldl (fun c plugin => add plugin None c) c (platformPlugins injectContext c).

(** ** Pipeline entry *)

(** [process]: the event is completed from the stored user info and handed
    to the timeline.  What the timeline's plugins then do is outside this
    model; the hand-over is recorded. *)
Definition process (incomingEvent : SegmentEvent) (c : SegmentClient)
    : SegmentClient :=
  emit (TimelineProcess incomingEvent (userInfo_get c)) c.

Definition logger_info (message : string) (event : option SegmentEvent)
    (c : SegmentClient) : SegmentClient :=
  emit (LoggerInfo message event) c.

(** [getPlugins(ofType?)] *)
Definition getPlugins (ofType : option PluginType) (c : SegmentClient)
    : list Plugin :=
  match ofType with
  | Some ty => Timeline.plugins (timeline c) ty
  | None => allPlugins (timeline c)
  end.

(** ** Flush scheduler: flush, tick, the buffer-size watcher *)

(** How a synchronous call ends. *)
Inductive Completion := Normal | Throw.

(** How the promise of an [async] method settles.  [flush] contains no
    [await]: its whole body runs before the call returns, and an
    exception inside it rejects the promise instead of reaching the
    caller. *)
Inductive Settled := Fulfilled | Rejected.

Section FlushCycle.
(** What a [client.flush()] call made by a plugin does; [None] when the
    recursion bound below is exhausted. *)
Variable flush : SegmentClient -> option (SegmentClient * Settled).

(** [n] flush requests reaching the client one after the other while a
    plugin's own [flush()] is running. *)
Fixpoint reenter (n : nat) (c : SegmentClient) : option SegmentClient :=
  match n with
  | O => Some c
  | S n => '(c, _) ← flush c; reenter n c
  end.

(** [plugin.flush()] *)
Definition pluginFlush (plugin : Plugin) (c : SegmentClient)
    : option (SegmentClient * Completion) :=
  match flushMethod plugin with
  | None => Some (c, Throw) (* calling a missing method is a TypeError *)
  | Some m =>
      c ← reenter (reenters m) (emit (FlushPlugin (pid plugin)) c);
      Some (c, if throws m then Throw else Normal)
  end.

(** [plugins.forEach((plugin) => plugin.flush())]: there is no handler
    around the callback, so the first exception ends the loop. *)
Fixpoint forEachFlush (plugins : list Plugin) (c : SegmentClient)
    : option (SegmentClient * Completion) :=
  match plugins with
  | [] => Some (c, Normal)
  | plugin :: rest =>
      '(c, r) ← pluginFlush plugin c;
      match r with
      | Throw => Some (c, Throw)
      | Normal => forEachFlush rest c
      end
  end.
End FlushCycle.

(** [flush], with a bound on the depth of flush calls made from inside
    plugins' flush methods. *)
Fixpoint flush_rec (fuel : nat) (c : SegmentClient)
    : option (SegmentClient * Settled) :=
  match fuel with
  | O => None
  | S fuel =>
      if negb (isPendingUpload c) then
        let c := set_isPendingUpload true c in
        (* try *)
        '(c, r) ←
          (if destroyed c then Some (c, Normal)
           else
             let c := set_secondsElapsed 0 c in
             let events := events (store c) in
             if (0 <? length events)%nat
             then forEachFlush (flush_rec fuel)
                    (getPluginsWithFlush (timeline c)) c
             else Some (c, Normal));
        (* finally *)
        let c := set_isPendingUpload false c in
        Some (c, match r with Normal => Fulfilled | Throw => Rejected end)
      else Some (c, Fulfilled)
  end.

(** Two levels are all that is ever used: a flush called from inside a
    plugin's flush finds [isPendingUpload] set and returns at once
    ([flush_rec_enough] below). *)
Definition flush (c : SegmentClient) : SegmentClient * Settled :=
  match flush_rec 2 c with
  | Some r => r
  | None => (c, Rejected)
  end.

(** [tick]: the promise [flush()] returns is dropped. *)
Definition tick (c : SegmentClient) : SegmentClient :=
  if secondsElapsed c + 1 >=? flushInterval (config c)
  then fst (flush c)
  else set_secondsElapsed (secondsElapsed c + 1) c.

(** The watcher [setupStorageSubscribers] installs on the buffered events. *)
Definition eventsWatcher (events : list SegmentEvent) (c : SegmentClient)
    : SegmentClient :=
  if Z.of_nat (length events) >=? flushAt (config c)
  then fst (flush c)
  else c.

(** [cleanup]: the timer is cleared, the readiness watcher and the store
    watchers are called, the app-state listener is removed, and the two
    flags are set. *)
Definition cleanup (c : SegmentClient) : SegmentClient :=
  let c := unsubscribeReadinessWatcher c in
  mkClient (config c) (store c) (secondsElapsed c) (appState c)
    false (* appStateSubscription?.remove() *)
    false (* clearInterval(this.flushInterval) *)
    false (* unsubscribeStorageWatchers() *)
    true  (* destroyed *)
    (isPendingUpload c) (isAddingPlugins c) (timeline c) (isStorageReady c)
    (pluginsToAdd c)
    false (* isInitialized *)
    (effects c).

(** ** Public event operations *)

Definition screen (name : string) (options : option JsonMap)
    (c : SegmentClient) : SegmentClient :=
  let event := createScreenEvent name options in
  let c := process event c in
  logger_info "SCREEN event saved" (Some event) c.

Definition track (eventName : string) (options : option JsonMap)
    (c : SegmentClient) : SegmentClient :=
  let event := createTrackEvent eventName options in
  let c := process event c in
  logger_info "TRACK event saved" (Some event) c.

Definition identify (userId' : string) (userTraits : option JsonMap)
    (c : SegmentClient) : SegmentClient :=
  let userInfo := userInfo (store c) in
  let currentUserTraits := traits userInfo in
  let mergedTraits := spread2 currentUserTraits userTraits in
  let event := createIdentifyEvent mergedTraits in
  let c := userInfo_set {| anonymousId := anonymousId userInfo;
                           userId := Some userId';
                           traits := Some mergedTraits |} c in
  let c := process event c in
  logger_info "IDENTIFY event saved" (Some event) c.

Definition group (groupId : string) (groupTraits : option JsonMap)
    (c : SegmentClient) : SegmentClient :=
  let event := createGroupEvent groupId groupTraits in
  let c := process event c in
  logger_info "GROUP event saved" (Some event) c.

Definition alias (newUserId : string) (c : SegmentClient) : SegmentClient :=
  let anonymousId' := anonymousId (userInfo (store c)) in
  let userId' := userId (userInfo (store c)) in
  let event := createAliasEvent anonymousId' userId' newUserId in
  let c := userInfo_set {| anonymousId := anonymousId (userInfo (store c));
                           userId := Some newUserId;
                           traits := traits (userInfo (store c)) |} c in
  let c := process event c in
  logger_info "ALIAS event saved" (Some event) c.

(** [reset]; [uuid] is the value returned by this call's [getUUID()]
    (uuid.ts, an external random generator). *)
Definition reset (uuid : string) (c : SegmentClient) : SegmentClient :=
  let c := userInfo_set {| anonymousId := uuid; userId := None;
                           traits := None |} c in
  logger_info "Client has been reset" None c.

(** ** Lifecycle tracker *)

(** [checkInstalledVersion]; [context] is what [await getContext(undefined)]
    resolved to (context.ts reads the device, outside this model).  Nothing
    is awaited after that first line. *)
Definition checkInstalledVersion (context : Context) (c : SegmentClient)
    : SegmentClient :=
  let previousContext := context_get c in
  let c := context_set (asPartial context) c in
  if negb (trackAppLifecycleEvents (config c)) then c
  else
    let c :=
      match previousContext ≫= Partial.app with
      | None =>
          let event := createTrackEvent "Application Installed"
            (Some (list_to_map
               [("version", JString (version (app context)));
                ("build", JString (build (app context)))])) in
          let c := process event c in
          logger_info "TRACK (Application Installed) event saved" (Some event) c
      | Some previousApp =>
          if decide (Some (version (app context)) ≠ Partial.version previousApp)
          then
            let event := createTrackEvent "Application Updated"
              (Some (list_to_map
                 [("version", JString (version (app context)));
                  ("build", JString (build (app context)));
                  ("previous_version", optString (Partial.version previousApp));
                  ("previous_build", optString (Partial.build previousApp))])) in
            let c := process event c in
            logger_info "TRACK (Application Updated) event saved" (Some event) c
          else c
      end in
    let event := createTrackEvent "Application Opened"
      (Some (list_to_map
         [("from_background", JBool false);
          ("version", JString (version (app context)));
          ("build", JString (build (app context)))])) in
    let c := process event c in
    logger_info "TRACK (Application Opened) event saved" (Some event) c.

(** [['inactive', 'background'].includes(s)] *)
Definition inactive_or_background (s : AppStateStatus) : bool :=
  match s with
  | inactive | background => true
  | _ => false
  end.

(** [handleAppStateChange] *)
Definition handleAppStateChange (nextAppState : AppStateStatus)
    (c : SegmentClient) : SegmentClient :=
  let c :=
    if trackAppLifecycleEvents (config c) then
      if inactive_or_background (appState c) && bool_decide (nextAppState = active)
      then
        let context := context_get c in
        let event := createTrackEvent "Application Opened"
          (Some (list_to_map
             [("from_background", JBool true);
              ("version", optString ((context ≫= Partial.app) ≫= Partial.version));
              ("build", optString ((context ≫= Partial.app) ≫= Partial.build))])) in
        let c := process event c in
        logger_info "TRACK (Application Opened) event saved" (Some event) c
      else if bool_decide (appState c = active) && inactive_or_background nextAppState
      then
        let event := createTrackEvent "Application Backgrounded" None in
        let c := process event c in
        logger_info "TRACK (Application Backgrounded) event saved" (Some event) c
      else c
    else c in
  set_appState nextAppState c.

(** ** Reading the record of outgoing calls *)

(** The events handed to [timeline.process], oldest first. *)
Definition processed (l : list Effect) : list SegmentEvent :=
  omap (fun e => match e with TimelineProcess ev _ => Some ev | _ => None end) l.

(** The identities of the plugins whose [configure] was called. *)
Definition configured (l : list Effect) : list nat :=
  omap (fun e => match e with Configure p => Some p | _ => None end) l.

(** The identities of the plugins whose [flush] was called. *)
Definition flushed (l : list Effect) : list nat :=
  omap (fun e => match e with FlushPlugin p => Some p | _ => None end) l.

(** The messages given to [logger.info]. *)
Definition logged (l : list Effect) : list string :=
  omap (fun e => match e with LoggerInfo m _ => Some m | _ => None end) l.

(** ** Vocabulary of the statements *)

Definition throwsOnFlush (p : Plugin) : bool :=
  match flushMethod p with Some m => throws m | None => true end.

(** The plugins a cycle reaches: all of them up to and including the first
    whose [flush] throws. *)
Fixpoint attempted (ps : list Plugin) : list Plugin :=
  match ps with
  | [] => []
  | p :: ps => if throwsOnFlush p then [p] else p :: attempted ps
  end.

(** What a flush that goes ahead leaves behind. *)
Definition afterCycle (c : SegmentClient) : SegmentClient * Settled :=
  let c0 := set_secondsElapsed 0 c in
  if (0 <? length (events (store c)))%nat then
    let ps := getPluginsWithFlush (timeline c) in
    (set_effects (effects c ++ map (fun p => FlushPlugin (pid p)) (attempted ps)) c0,
     if existsb throwsOnFlush ps then Rejected else Fulfilled)
  else (c0, Fulfilled).

(** The calls that drive the readiness gate: [add({ plugin, settings })]
    from the application and the store's readiness signal. *)
Inductive GateCall :=
| CallAdd (plugin : Plugin) (settings : option JsonMap)
| Signal (isReady : bool).

Definition gateCall (g : GateCall) (c : SegmentClient) : SegmentClient :=
  match g with
  | CallAdd plugin settings => add plugin settings c
  | Signal isReady => onStorageReady isReady c
  end.

Definition run (calls : list GateCall) (c : SegmentClient) : SegmentClient :=
  foldl (fun c g => gateCall g c) c calls.

(** The plugins passed to [add] by a sequence of calls, in call order. *)
Definition added (calls : list GateCall) : list Plugin :=
  omap (fun g => match g with CallAdd p _ => Some p | Signal _ => None end) calls.

(** No true readiness signal among the calls. *)
Definition quiet (calls : list GateCall) : bool :=
  forallb (fun g => match g with Signal true => false | _ => true end) calls.

(** [k] timer ticks in a row. *)
Definition ticks (k : nat) (c : SegmentClient) : SegmentClient :=
  Nat.iter k tick c.

(** *** Objects for the concrete runs *)

Definition segmentDestination : Plugin :=
  mkPlugin 0 destination "Segment.io" [] (Some {| reenters := 0; throws := false |}).
Definition injectContext : Plugin := mkPlugin 1 before "InjectContext" [] None.

Definition sampleConfig : Config :=
  {| writeKey := "mock-write-key"; flushAt := 20; flushInterval := 30;
     trackAppLifecycleEvents := true; trackDeepLinks := false;
     autoAddSegmentDestination := true |}.

(** The store of methods/identify.test.ts. *)
Definition initialUserInfo : UserInfoState :=
  {| anonymousId := "very-anonymous"; userId := Some "current-user-id";
     traits := Some (list_to_map [("name", JString "Stacy"); ("age", JNumber 30)]) |}.

Definition mockStore (buffered : list SegmentEvent) : Storage :=
  {| events := buffered; userInfo := initialUserInfo; context := None;
     settings := ∅ |}.

(** A client as the constructor leaves it, then made ready by the store's
    signal. *)
Definition readyClient (buffered : list SegmentEvent) : SegmentClient :=
  onStorageReady true
    (new_SegmentClient segmentDestination injectContext sampleConfig
       (mockStore buffered)).

(** Two destinations registered after the built-in ones; the first one's
    [flush] throws. *)
Definition failingDestination : Plugin :=
  mkPlugin 20 destination "Failing" [] (Some {| reenters := 0; throws := true |}).
Definition healthyDestination : Plugin :=
  mkPlugin 21 destination "Healthy" [] (Some {| reenters := 0; throws := false |}).

Definition clientWithFailingDestination : SegmentClient :=
  add healthyDestination None
    (add failingDestination None
       (readyClient [TrackEvent "Order Completed" None])).

(** A destination whose [flush] asks the client to flush twice more and
    then throws, registered before a well-behaved one. *)
Definition retryingDestination : Plugin :=
  mkPlugin 30 destination "Retrying" [] (Some {| reenters := 2; throws := true |}).
Definition laterDestination : Plugin :=
  mkPlugin 31 destination "Later" [] (Some {| reenters := 1; throws := false |}).

Definition clientWithRetryingDestination : SegmentClient :=
  add laterDestination None
    (add retryingDestination None
       (readyClient [ScreenEvent "Home" None])).

(** The same destination object handed to [add] twice: the timeline does
    not deduplicate, so its bucket holds two entries for it. *)
Definition clientWithDestinationAddedTwice : SegmentClient :=
  add healthyDestination None
    (add healthyDestination None (readyClient [ScreenEvent "Home" None])).

(** The number of entries for the plugin with identity [plugin] in a list
    of plugins: its registrations when the list is the timeline's, its
    delivery attempts when the list is that of the plugins a cycle
    reached. *)
Definition entriesOf (plugin : nat) (ps : list Plugin) : nat :=
  count_occ Nat.eq_dec (map pid ps) plugin.


(** The state handed to the plugins by a flush that goes ahead. *)
Definition enterCycle (c : SegmentClient) : SegmentClient :=
  set_secondsElapsed 0 (set_isPendingUpload true c).

(** A flush is running and the counter has been reset. *)
Definition inCycle (c : SegmentClient) : Prop :=
  isPendingUpload c = true /\ secondsElapsed c = 0.

#[global] Instance inCycle_dec c : Decision (inCycle c).
Proof. unfold inCycle. apply _. Defined.

(** A client that was made ready and then torn down. *)
Definition destroyedClient : SegmentClient := cleanup (readyClient []).

(** [t1] overridden key by key with [t2]. *)
Definition overridden (t1 t2 : JsonMap) : JsonMap := t2 ∪ t1.

(** The traits of the spec's example. *)
Definition traits_a0_b2 : JsonMap := list_to_map [("a", JNumber 0); ("b", JNumber 2)].
Definition traits_a1 : JsonMap := list_to_map [("a", JNumber 1)].

(** A client over the store of methods/identify.test.ts, whose user already
    has the traits [name] and [age]. *)
Definition testClient : SegmentClient := readyClient [].

(** Modelled from the spec: uuid.ts is not among the sources.  Section 1
    counts identifier generation among the injected dependencies "with a
    fixed contract"; sections 4.5 and 8 state that contract as [reset]
    sees it: the identifier issued is "new", "different from the prior
    value".  [issuedFor c uuid] holds when [uuid] is a value [getUUID()]
    may return to the client [c] under that contract. *)
Definition issuedFor (c : SegmentClient) (uuid : string) : Prop :=
  uuid <> anonymousId (userInfo (store c)).

#[global] Instance issuedFor_dec c uuid : Decision (issuedFor c uuid).
Proof. unfold issuedFor. apply _. Defined.

(** *** The lifecycle events, in the spec's words *)

Definition applicationInstalled (context : Context) : SegmentEvent :=
  TrackEvent "Application Installed"
    (Some (list_to_map [("version", JString (version (app context)));
                        ("build", JString (build (app context)))])).

Definition applicationUpdated (context : Context) (previous : Partial.App)
    : SegmentEvent :=
  TrackEvent "Application Updated"
    (Some (list_to_map
       [("version", JString (version (app context)));
        ("build", JString (build (app context)));
        ("previous_version", optString (Partial.version previous));
        ("previous_build", optString (Partial.build previous))])).

Definition applicationOpened (from_background : bool) (version build : JsonValue)
    : SegmentEvent :=
  TrackEvent "Application Opened"
    (Some (list_to_map [("from_background", JBool from_background);
                        ("version", version); ("build", build)])).

Definition applicationBackgrounded : SegmentEvent :=
  TrackEvent "Application Backgrounded" None.


(** Section 4.4, subsequent signals: Inactive or Background to Active,
    Opened with [from_background = true]; Active to Inactive or
    Background, Backgrounded; any other pair, nothing. *)
Definition transitionEvents (from to : AppStateStatus)
    (stored : option Partial.Context) : list SegmentEvent :=
  match from, to with
  | inactive, active | background, active =>
      [applicationOpened true
         (optString ((stored ≫= Partial.app) ≫= Partial.version))
         (optString ((stored ≫= Partial.app) ≫= Partial.build))]
  | active, inactive | active, background => [applicationBackgrounded]
  | _, _ => []
  end.

(** A client whose app was last seen in the background, at version 1.0. *)
Definition backgroundedClient : SegmentClient :=
  handleAppStateChange background
    (handleAppStateChange active
       (checkInstalledVersion {| app := {| version := "1.0"; build := "7" |} |}
          testClient)).

(** *** The readiness gate seen from outside *)

(** A plugin whose [configure] makes no [add] call on the client. *)
Definition plain (p : Plugin) : Prop := onConfigure p = [].

#[global] Instance plain_dec p : Decision (plain p).
Proof.
  unfold plain. destruct (onConfigure p); [left; reflexivity|right; discriminate].
Defined.

(** What the gate holds: ready flag, pending queue, drain-in-progress flag,
    record of outgoing calls, timeline. *)
Definition gateView (c : SegmentClient)
    : bool * list Plugin * bool * list Effect * Timeline :=
  (isStorageReady c, pluginsToAdd c, isAddingPlugins c, effects c, timeline c).

(** Registering a list of plugins one after the other. *)
Definition registerAll (ps : list Plugin) (t : Timeline) : Timeline :=
  foldl (fun t p => Timeline.add p t) t ps.

Definition configureAll (ps : list Plugin) : list Effect :=
  map (fun p => Configure (pid p)) ps.

(** A client straight out of the constructor: the store has not reported
    readiness yet. *)
Definition newClient : SegmentClient :=
  new_SegmentClient segmentDestination injectContext sampleConfig (mockStore []).

(** An enrichment plugin whose [configure(client)] calls
    [client.add({ plugin: lateComer })]. *)
Definition lateComer : Plugin := mkPlugin 11 enrichment "LateComer" [] None.
Definition introducer : Plugin :=
  mkPlugin 10 enrichment "Introducer" [lateComer] None.

(** ** Further operations of the client *)

(** [getConfig]: a copy of the configuration. *)
Definition getConfig (c : SegmentClient) : Config := config c.

(** [setupInterval]: a running timer is cleared and a new one started. *)
Definition setupInterval (c : SegmentClient) : SegmentClient :=
  mkClient (config c) (store c) (secondsElapsed c) (appState c)
    (appStateSubscription c) true (watchers c) (destroyed c)
    (isPendingUpload c) (isAddingPlugins c) (timeline c) (isStorageReady c)
    (pluginsToAdd c) (isInitialized c) (effects c).

(** [setupStorageSubscribers]: the watchers held are called, then the
    buffer-size watcher ([eventsWatcher]) is subscribed. *)
Definition setupStorageSubscribers (c : SegmentClient) : SegmentClient :=
  mkClient (config c) (store c) (secondsElapsed c) (appState c)
    (appStateSubscription c) (flushIntervalTimer c) true (destroyed c)
    (isPendingUpload c) (isAddingPlugins c) (timeline c) (isStorageReady c)
    (pluginsToAdd c) (isInitialized c) (effects c).

(** [setupLifecycleEvents]: the listener held is removed and a new one
    ([handleAppStateChange]) attached. *)
Definition setupLifecycleEvents (c : SegmentClient) : SegmentClient :=
  mkClient (config c) (store c) (secondsElapsed c) (appState c)
    true (flushIntervalTimer c) (watchers c) (destroyed c)
    (isPendingUpload c) (isAddingPlugins c) (timeline c) (isStorageReady c)
    (pluginsToAdd c) (isInitialized c) (effects c).

(** JavaScript truthiness of [string | null]: [null] and the empty string
    are falsy. *)
Definition truthy (url : option string) : bool :=
  match url with
  | Some (String _ _) => true
  | _ => false
  end.

(** The method [trackDeepLinks] (the name is taken by the configuration
    field); [url] is what [await Linking.getInitialURL()] resolved to. *)
Definition client_trackDeepLinks (url : option string) (c : SegmentClient)
    : SegmentClient :=
  if truthy url && trackDeepLinks (getConfig c) then
    let event := createTrackEvent "Deep Link Opened"
      (Some (list_to_map [("url", optString url)])) in
    let c := process event c in
    logger_info "TRACK (Deep Link Opened) event saved" (Some event) c
  else c.

(** [remove({ plugin })] *)
Definition remove (plugin : Plugin) (c : SegmentClient) : SegmentClient :=
  set_timeline (Timeline.remove plugin (timeline c)) c.

(** [store.events.add] and [store.events.remove].  Modelled from the spec
    and store.test.ts: the store is handed to the constructor; section 6
    names the two operations of the events slice, and store.test.ts shows
    what they do to it: an added event goes to the end of the buffer, and
    events are removed by message id.  The events of this model carry no
    message id, so a buffered event is identified by its position: [gone]
    lists the positions of the events to remove, a position past the end
    standing for an event that is not in the buffer. *)
Definition events_add (event : SegmentEvent) (c : SegmentClient) : SegmentClient :=
  set_store {| events := events (store c) ++ [event];
               userInfo := userInfo (store c);
               context := context (store c); settings := settings (store c) |} c.

Definition withoutPositions (gone : list nat) (buffered : list SegmentEvent)
    : list SegmentEvent :=
  omap (fun ie : nat * SegmentEvent =>
          if bool_decide (ie.1 ∈ gone) then None else Some ie.2)
       (imap pair buffered).

Definition events_remove (gone : list nat) (c : SegmentClient) : SegmentClient :=
  set_store {| events := withoutPositions gone (events (store c));
               userInfo := userInfo (store c);
               context := context (store c); settings := settings (store c) |} c.

(** [queueEvent(event)] *)
Definition queueEvent (event : SegmentEvent) (c : SegmentClient) : SegmentClient :=
  events_add event c.

(** [removeEvents(events)] *)
Definition removeEvents (gone : list nat) (c : SegmentClient) : SegmentClient :=
  events_remove gone c.

(** *** Any sequence of calls *)

(** The calls that reach a client: the public methods, the setter of the
    [context] watchable ([client.context.set], which is the store's), and
    the callbacks the client registers with the timer, the store and the
    platform.  When and with what the store notifies its subscribers is the
    store's affair: a notification is a call of its own
    ([DoEventsChanged], [DoStorageReady]).

    Three public methods are not calls of their own.  [apply] hands the
    plugin objects to a closure of the caller.  [fetchSettings] goes
    through the network, [logger.warn] and [config.defaultSettings], and
    writes the stored settings.  [init], unless the client is initialized
    already, is [onStorageReady(true)] when the store is ready (a
    subscription to its readiness signal when it is not), then
    [fetchSettings], then [flush], [setupInterval],
    [setupStorageSubscribers], [setupLifecycleEvents], [trackDeepLinks]
    and [checkInstalledVersion], with whatever else is called while it
    awaits. *)
Inductive Call :=
| DoAdd (plugin : Plugin) (settings : option JsonMap)
| DoStorageReady (isReady : bool)
| DoProcess (incomingEvent : SegmentEvent)
| DoTrack (eventName : string) (options : option JsonMap)
| DoScreen (name : string) (options : option JsonMap)
| DoGroup (groupId : string) (groupTraits : option JsonMap)
| DoIdentify (userId : string) (userTraits : option JsonMap)
| DoAlias (newUserId : string)
| DoReset (uuid : string)
| DoFlush
| DoTick
| DoEventsChanged (events : list SegmentEvent)
| DoAppStateChange (nextAppState : AppStateStatus)
| DoCheckInstalledVersion (context : Context)
| DoTrackDeepLinks (url : option string)
| DoSetupInterval
| DoSetupStorageSubscribers
| DoSetupLifecycleEvents
| DoCleanup
| DoRemove (plugin : Plugin)
| DoQueueEvent (event : SegmentEvent)
| DoRemoveEvents (gone : list nat)
| DoContextSet (context : Partial.Context).

Definition call (k : Call) (c : SegmentClient) : SegmentClient :=
  match k with
  | DoAdd plugin settings => add plugin settings c
  | DoStorageReady isReady => onStorageReady isReady c
  | DoProcess incomingEvent => process incomingEvent c
  | DoTrack eventName options => track eventName options c
  | DoScreen name options => screen name options c
  | DoGroup groupId groupTraits => group groupId groupTraits c
  | DoIdentify userId userTraits => identify userId userTraits c
  | DoAlias newUserId => alias newUserId c
  | DoReset uuid => reset uuid c
  | DoFlush => fst (flush c)
  | DoTick => tick c
  | DoEventsChanged events => eventsWatcher events c
  | DoAppStateChange nextAppState => handleAppStateChange nextAppState c
  | DoCheckInstalledVersion context => checkInstalledVersion context c
  | DoTrackDeepLinks url => client_trackDeepLinks url c
  | DoSetupInterval => setupInterval c
  | DoSetupStorageSubscribers => setupStorageSubscribers c
  | DoSetupLifecycleEvents => setupLifecycleEvents c
  | DoCleanup => cleanup c
  | DoRemove plugin => remove plugin c
  | DoQueueEvent event => queueEvent event c
  | DoRemoveEvents gone => removeEvents gone c
  | DoContextSet context => context_set context c
  end.

Definition calls (ks : list Call) (c : SegmentClient) : SegmentClient :=
  foldl (fun c k => call k c) c ks.

Definition isReset (k : Call) : bool :=
  match k with DoReset _ => true | _ => false end.

(** The calls that write the stored context: the startup check and the
    context setter. *)
Definition writesContext (k : Call) : bool :=
  match k with
  | DoCheckInstalledVersion _ | DoContextSet _ => true
  | _ => false
  end.

(** The calls that write the buffered events. *)
Definition writesEvents (k : Call) : bool :=
  match k with
  | DoQueueEvent _ | DoRemoveEvents _ => true
  | _ => false
  end.

(** A true readiness signal. *)
Definition isReadySignal (k : Call) : bool :=
  match k with DoStorageReady true => true | _ => false end.

(** The plugins handed to [add] by a sequence of calls, in call order. *)
Definition addedBy (ks : list Call) : list Plugin :=
  omap (fun k => match k with DoAdd p _ => Some p | _ => None end) ks.

(** The timer ticks among a sequence of calls. *)
Definition isTick (k : Call) : bool :=
  match k with DoTick => true | _ => false end.

Definition countTicks (ks : list Call) : nat :=
  length (filter (fun k => isTick k = true) ks).

(** The calls that leave the flush schedule of a client with that
    configuration to the timer: anything but a manual flush, a
    notification of a buffer that has reached [flushAt], and [cleanup]. *)
Definition keepsSchedule (config : Config) (k : Call) : bool :=
  match k with
  | DoFlush | DoCleanup => false
  | DoEventsChanged events => Z.of_nat (length events) <? flushAt config
  | _ => true
  end.

(** *** Plugins that add plugins *)

(** The identities configured when [plugin] goes through [addPlugin] on a
    ready client: the plugin itself, then, for each plugin its [configure]
    adds, that plugin's own run. *)
Fixpoint configureOrder (plugin : Plugin) : list nat :=
  pid plugin :: flat_map configureOrder (onConfigure plugin).

(** The timeline after [plugin] went through [addPlugin] on a ready client:
    whatever its [configure] added is registered first. *)
Fixpoint registerTree (plugin : Plugin) (t : Timeline) : Timeline :=
  Timeline.add plugin
    (foldl (fun t q => registerTree q t) t (onConfigure plugin)).

(** [add]'s first statement: settings given for a destination plugin are
    stored under its key. *)
Definition withSettings (plugin : Plugin) (settings : option JsonMap)
    (c : SegmentClient) : SegmentClient :=
  match settings, type plugin with
  | Some s, destination => settings_add (key plugin) s c
  | _, _ => c
  end.

(** *** Lifecycle signals in a row *)

Definition signals (l : list AppStateStatus) (c : SegmentClient) : SegmentClient :=
  foldl (fun c s => handleAppStateChange s c) c l.

(** A track event with that name. *)
Definition named (n : string) (e : SegmentEvent) : bool :=
  match e with
  | TrackEvent m _ => bool_decide (m = n)
  | _ => false
  end.

Definition countNamed (n : string) (l : list SegmentEvent) : nat :=
  length (filter (fun e => named n e = true) l).

(** One of the three values the platform reports. *)
Definition reported (s : AppStateStatus) : bool :=
  match s with
  | active | inactive | background => true
  | _ => false
  end.

(** The events one track, screen or group call hands to the timeline. *)
Definition plainEvent (k : Call) : option SegmentEvent :=
  match k with
  | DoProcess e => Some e
  | DoTrack n o => Some (TrackEvent n o)
  | DoScreen n o => Some (ScreenEvent n o)
  | DoGroup g t => Some (GroupEvent g t)
  | _ => None
  end.

(** *** What holds of every client a program can reach *)

(** The client as it stands between two calls: no drain and no flush is
    in progress; the gate is ready exactly when nothing is pending; every
    entry of the timeline stands for a [configure] call made before it was
    registered; the tick counter is below the flush interval. *)
Definition settled (c : SegmentClient) : Prop :=
  isAddingPlugins c = false /\
  isPendingUpload c = false /\
  (if isStorageReady c then pluginsToAdd c = [] else pluginsToAdd c <> []) /\
  map pid (allPlugins (timeline c)) ⊆+ configured (effects c) /\
  0 <= secondsElapsed c < Z.max 1 (flushInterval (config c)).

(** The delivery attempts of one flush cycle of the client. *)
Definition cycleAttempts (c : SegmentClient) : list nat :=
  if (0 <? length (events (store c)))%nat
  then map pid (attempted (getPluginsWithFlush (timeline c)))
  else [].

(** Neither destroyed nor flushing. *)
Definition live (c : SegmentClient) : Prop :=
  destroyed c = false /\ isPendingUpload c = false.

(** The events the lifecycle tracker emits along a path of signals. *)
Fixpoint lifecycleTrace (from : AppStateStatus) (l : list AppStateStatus)
    (stored : option Partial.Context) : list SegmentEvent :=
  match l with
  | [] => []
  | to :: l => transitionEvents from to stored ++ lifecycleTrace to l stored
  end.

(** 1 when the app is in the background as the tracker sees it. *)
Definition away (s : AppStateStatus) : nat :=
  if inactive_or_background s then 1%nat else 0%nat.

(** The calls that hand events to the timeline, write the user info or
    the context, or move the lifecycle tracker. *)
Definition isQuiet (k : Call) : bool :=
  match k with
  | DoProcess _ | DoTrack _ _ | DoScreen _ _ | DoGroup _ _ | DoIdentify _ _
  | DoAlias _ | DoReset _ | DoAppStateChange _ | DoCheckInstalledVersion _
  | DoTrackDeepLinks _ | DoContextSet _ => true
  | _ => false
  end.

(** [c'] is [c] but for user info, context, tracker state and outgoing
    events and log lines. *)
Definition quietly (c c' : SegmentClient) : Prop :=
  config c' = config c /\ secondsElapsed c' = secondsElapsed c /\
  destroyed c' = destroyed c /\ isPendingUpload c' = isPendingUpload c /\
  isAddingPlugins c' = isAddingPlugins c /\ timeline c' = timeline c /\
  isStorageReady c' = isStorageReady c /\ pluginsToAdd c' = pluginsToAdd c /\
  events (store c') = events (store c) /\
  settings (store c') = settings (store c) /\
  appStateSubscription c' = appStateSubscription c /\
  flushIntervalTimer c' = flushIntervalTimer c /\
  watchers c' = watchers c /\ isInitialized c' = isInitialized c /\
  configured (effects c') = configured (effects c) /\
  flushed (effects c') = flushed (effects c).

(** * Properties *)

(** ** Record bookkeeping *)

Lemma pending_roundtrip c :
  isPendingUpload c = false ->
  set_isPendingUpload false (set_isPendingUpload true c) = c.
Proof. destruct c; simpl; intros ->; reflexivity. Qed.

Lemma processed_app l1 l2 : processed (l1 ++ l2) = processed l1 ++ processed l2.
Proof. apply omap_app. Qed.

Lemma flushed_app l1 l2 : flushed (l1 ++ l2) = flushed l1 ++ flushed l2.
Proof. apply omap_app. Qed.

Lemma configured_app l1 l2 :
  configured (l1 ++ l2) = configured l1 ++ configured l2.
Proof. apply omap_app. Qed.

Lemma logged_app l1 l2 : logged (l1 ++ l2) = logged l1 ++ logged l2.
Proof. apply omap_app. Qed.

Lemma flushed_FlushPlugin ps :
  flushed (map (fun p => FlushPlugin (pid p)) ps) = map pid ps.
Proof. induction ps as [|p ps IH]; simpl; [reflexivity|]. unfold flushed in *. simpl. now rewrite IH. Qed.

(** ** The flush cycle *)

(** A flush request that finds a flush in flight returns at once. *)
Lemma flush_rec_in_flight fuel c :
  isPendingUpload c = true -> flush_rec (S fuel) c = Some (c, Fulfilled).
Proof. intros H. simpl. now rewrite H. Qed.

Section InFlight.
(** [f] stands for the client's flush as the plugins see it, and [P] for a
    property of the states in which they call it: there [f] returns at once
    with the client unchanged, and recording a call keeps [P]. *)
Variable f : SegmentClient -> option (SegmentClient * Settled).
Variable P : SegmentClient -> Prop.
Hypothesis f_in_flight : forall c, P c -> f c = Some (c, Fulfilled).
Hypothesis P_effects : forall c l, P c -> P (set_effects l c).

Lemma reenter_in_flight n c : P c -> reenter f n c = Some c.
Proof.
  intros H. induction n as [|n IH]; simpl; [reflexivity|].
  rewrite (f_in_flight c H). simpl. exact IH.
Qed.

Lemma forEachFlush_in_flight ps : forall c,
  P c ->
  Forall (fun p => hasFlush p = true) ps ->
  forEachFlush f ps c =
    Some (set_effects (effects c ++ map (fun p => FlushPlugin (pid p)) (attempted ps)) c,
          if existsb throwsOnFlush ps then Throw else Normal).
Proof.
  induction ps as [|p ps IH]; intros c Hp Hall; simpl.
  - rewrite app_nil_r. destruct c; reflexivity.
  - inversion Hall as [|? ? Hf Hall']; subst.
    unfold pluginFlush, throwsOnFlush, hasFlush in *.
    destruct (flushMethod p) as [m|]; [|discriminate].
    rewrite reenter_in_flight by (apply P_effects, Hp). simpl.
    destruct (throws m); simpl.
    + reflexivity.
    + rewrite IH by (try apply P_effects; assumption). simpl.
      rewrite <- app_assoc. reflexivity.
Qed.
End InFlight.

Lemma pending_effects c l :
  isPendingUpload c = true -> isPendingUpload (set_effects l c) = true.
Proof. destruct c; intros H; exact H. Qed.

Lemma getPluginsWithFlush_hasFlush t :
  Forall (fun p => hasFlush p = true) (getPluginsWithFlush t).
Proof.
  unfold getPluginsWithFlush. apply Forall_forall. intros p Hin.
  apply list_elem_of_filter in Hin. tauto.
Qed.

(** Enough fuel gives the result: from depth 2 on, [flush_rec] returns, and
    returns the same state and the same settlement. *)
Lemma flush_rec_enough fuel c :
  flush_rec (S (S fuel)) c =
    Some (if isPendingUpload c then (c, Fulfilled)
          else if destroyed c then (c, Fulfilled)
          else afterCycle c).
Proof.
  destruct (isPendingUpload c) eqn:Hp.
  - now apply flush_rec_in_flight.
  - cbn [flush_rec]. rewrite Hp. cbn [negb].
    replace (destroyed (set_isPendingUpload true c)) with (destroyed c)
      by (destruct c; reflexivity).
    destruct (destroyed c) eqn:Hd.
    + simpl. now rewrite pending_roundtrip.
    + unfold afterCycle.
      replace (events (store (set_secondsElapsed 0 (set_isPendingUpload true c))))
        with (events (store c)) by (destruct c; reflexivity).
      destruct (0 <? length (events (store c)))%nat.
      * rewrite (forEachFlush_in_flight (flush_rec (S fuel))
                   (fun c => isPendingUpload c = true))
          by (try (intros; now apply flush_rec_in_flight);
              try (intros; now apply pending_effects);
              try apply getPluginsWithFlush_hasFlush;
              destruct c; reflexivity).
        replace (timeline (set_secondsElapsed 0 (set_isPendingUpload true c)))
          with (timeline c) by (destruct c; reflexivity).
        simpl. destruct c; simpl in *; subst.
        destruct (existsb _ _); reflexivity.
      * simpl. destruct c; simpl in *; subst; reflexivity.
Qed.

(** [flush] unfolded. *)
Lemma flush_eq c :
  flush c = if isPendingUpload c then (c, Fulfilled)
            else if destroyed c then (c, Fulfilled)
            else afterCycle c.
Proof. unfold flush. now rewrite (flush_rec_enough 0 c). Qed.

(** ** C3: flush and a plugin that throws *)

Lemma attempted_prefix ps : attempted ps `prefix_of` ps.
Proof.
  induction ps as [|p ps IH]; simpl; [reflexivity|].
  destruct (throwsOnFlush p).
  - exists ps. reflexivity.
  - now apply prefix_cons.
Qed.

Lemma attempted_all ps : existsb throwsOnFlush ps = false -> attempted ps = ps.
Proof.
  induction ps as [|p ps IH]; simpl; [reflexivity|].
  destruct (throwsOnFlush p); simpl; [discriminate|].
  intros H. now rewrite IH.
Qed.

Lemma nonempty_length {A} (l : list A) : l <> [] -> (0 <? length l)%nat = true.
Proof. destruct l; [congruence|reflexivity]. Qed.

(** C3, the claim as stated fails: the buffer holds an event, no flush is in
    flight, the client is not destroyed and [healthyDestination] is
    flush-capable and registered; [failingDestination], registered before
    it, throws.  The exception is neither caught nor logged, the promise
    rejects, and [healthyDestination.flush()] is never called in that
    cycle. *)
Lemma flush_throw_skips_the_rest :
  let c := clientWithFailingDestination in
  events (store c) <> [] /\ isPendingUpload c = false /\ destroyed c = false /\
  (healthyDestination ∈ getPluginsWithFlush (timeline c)) /\
  flushed (effects (fst (flush c))) = [0%nat; 20%nat] /\
  (pid healthyDestination ∉ flushed (effects (fst (flush c)))) /\
  logged (effects (fst (flush c))) = [] /\
  snd (flush c) = Rejected.
Proof.
  cbv zeta. repeat split; try (vm_compute; congruence).
  - vm_compute. apply list_elem_of_In. simpl. tauto.
  - vm_compute. intros H. apply list_elem_of_In in H. simpl in H.
    repeat destruct H as [H|H]; try discriminate; exact H.
Qed.

(** The delivery attempts of a flush that goes ahead over a non-empty
    buffer. *)
Lemma cycle_attempts (c : SegmentClient) :
  isPendingUpload c = false ->
  destroyed c = false ->
  events (store c) <> [] ->
  flush c =
    (set_effects
       (effects c ++ map (fun p => FlushPlugin (pid p))
                      (attempted (getPluginsWithFlush (timeline c))))
       (set_secondsElapsed 0 c),
     if existsb throwsOnFlush (getPluginsWithFlush (timeline c))
     then Rejected else Fulfilled).
Proof.
  intros Hp Hd He. rewrite flush_eq, Hp, Hd. unfold afterCycle.
  now rewrite (nonempty_length _ He).
Qed.

Lemma attempted_all_or_throw ps :
  if existsb throwsOnFlush ps then True else attempted ps = ps.
Proof. destruct (existsb throwsOnFlush ps) eqn:E; [exact I|now apply attempted_all]. Qed.

(** C3, as the code has it: with a non-empty buffer, no flush in flight and
    a live client, [flush] calls the flush-capable plugins in timeline
    order with no handler around each call.  The plugins reached are those
    up to and including the first that throws, which is all of them when
    none throws; nothing is logged; the in-flight flag is cleared either
    way; the promise rejects exactly when a plugin threw. *)
Theorem flush_invokes_until_first_throw (c : SegmentClient) :
  isPendingUpload c = false ->
  destroyed c = false ->
  events (store c) <> [] ->
  let ps := getPluginsWithFlush (timeline c) in
  let c' := fst (flush c) in
  flushed (effects c') = flushed (effects c) ++ map pid (attempted ps) /\
  attempted ps `prefix_of` ps /\
  (if existsb throwsOnFlush ps then True else attempted ps = ps) /\
  logged (effects c') = logged (effects c) /\
  isPendingUpload c' = false /\
  snd (flush c) = (if existsb throwsOnFlush ps then Rejected else Fulfilled).
Proof.
  intros Hp Hd He ps c'. subst c'.
  rewrite (cycle_attempts c Hp Hd He). fold ps. simpl.
  repeat split.
  - rewrite flushed_app, flushed_FlushPlugin. reflexivity.
  - apply attempted_prefix.
  - apply attempted_all_or_throw.
  - rewrite logged_app.
    replace (logged (map _ (attempted ps))) with (@nil string);
      [now rewrite app_nil_r|].
    induction (attempted ps) as [|q qs IH]; [reflexivity|exact IH].
  - exact Hp.
Qed.

Lemma flush_invokes_until_first_throw_witness :
  let c := clientWithFailingDestination in
  (isPendingUpload c = false /\ destroyed c = false /\ events (store c) <> []) /\
  flushed (effects (fst (flush c))) = flushed (effects c) ++ [0%nat; 20%nat].
Proof.
  cbv zeta. split.
  - repeat split; vm_compute; congruence.
  - apply (flush_invokes_until_first_throw clientWithFailingDestination);
      vm_compute; congruence.
Defined.

(** ** C5: a flush request while a flush is running *)

(** C5, the claim as stated fails: over a non-empty buffer, with two
    overlapping requests arriving during the cycle, [laterDestination] is
    flush-capable and registered but receives no delivery attempt, because
    [retryingDestination] before it threw (the missing per-plugin handler
    of C3). *)
Lemma flush_cycle_zero_attempts :
  let c := clientWithRetryingDestination in
  events (store c) <> [] /\ isPendingUpload c = false /\ destroyed c = false /\
  (laterDestination ∈ getPluginsWithFlush (timeline c)) /\
  count_occ Nat.eq_dec (flushed (effects (fst (flush c)))) (pid laterDestination) = 0%nat /\
  count_occ Nat.eq_dec (flushed (effects (fst (flush c)))) (pid retryingDestination) = 1%nat.
Proof.
  cbv zeta. repeat split; try (vm_compute; congruence).
  vm_compute. apply list_elem_of_In. simpl. tauto.
Qed.

(** Requests that reach the client while a plugin's [flush] runs change
    nothing. *)
Lemma reenter_flush_noop n c :
  isPendingUpload c = true -> reenter (fun c => Some (flush c)) n c = Some c.
Proof.
  intros H. apply (reenter_in_flight _ (fun c => isPendingUpload c = true));
    [|exact H].
  intros c' H'. now rewrite flush_eq, H'.
Qed.

Lemma entriesOf_prefix (plugin : nat) (reached ps : list Plugin) :
  reached `prefix_of` ps -> (entriesOf plugin reached <= entriesOf plugin ps)%nat.
Proof.
  intros [rest ->]. unfold entriesOf. rewrite map_app, count_occ_app. lia.
Qed.

Lemma entriesOf_NoDup (plugin : nat) (ps : list Plugin) :
  NoDup (map pid ps) -> (entriesOf plugin ps <= 1)%nat.
Proof.
  intros H. unfold entriesOf. apply NoDup_ListNoDup in H.
  apply (proj1 (NoDup_count_occ Nat.eq_dec (map pid ps)) H).
Qed.

(** The cycle ends with the first plugin whose [flush] throws. *)
Lemma attempted_first_throw (front rest : list Plugin) (p : Plugin) :
  existsb throwsOnFlush front = false ->
  throwsOnFlush p = true ->
  attempted (front ++ p :: rest) = front ++ [p].
Proof.
  intros Hfront Hp. induction front as [|q front IH]; simpl.
  - now rewrite Hp.
  - simpl in Hfront. apply orb_false_elim in Hfront as [Hq Hfront].
    now rewrite Hq, IH.
Qed.

(** C5, as the code has it: a flush is running while [isPendingUpload] is
    set, that is during the body of [flush], and a [flush()] call that
    finds it set returns with the client unchanged.  Hence, for a cycle
    over a non-empty buffer, whatever number of flush requests each
    plugin's [flush] raises while it runs (the [reenters] of the registered
    plugins are arbitrary here), the delivery attempts of the cycle are one
    per entry of the timeline reached, in timeline order.  A plugin thus
    receives at most as many attempts as it has entries in the timeline,
    which is at most one when no plugin is registered twice, and can be two
    for a plugin that was added twice; it receives exactly as many when no
    plugin throws; and the entries after the first plugin that throws
    receive none. *)
Theorem flush_in_flight_collapses (c : SegmentClient) :
  destroyed c = false ->
  events (store c) <> [] ->
  let ps := getPluginsWithFlush (timeline c) in
  if isPendingUpload c
  then flush c = (c, Fulfilled)
  else flushed (effects (fst (flush c))) = flushed (effects c) ++ map pid (attempted ps) /\
       attempted ps `prefix_of` ps /\
       (if existsb throwsOnFlush ps then True else attempted ps = ps) /\
       (forall plugin : nat,
          (entriesOf plugin (attempted ps) <= entriesOf plugin ps)%nat /\
          (NoDup (map pid ps) -> (entriesOf plugin (attempted ps) <= 1)%nat) /\
          (existsb throwsOnFlush ps = false ->
           entriesOf plugin (attempted ps) = entriesOf plugin ps)) /\
       (forall (front rest : list Plugin) (p : Plugin),
          ps = front ++ p :: rest ->
          existsb throwsOnFlush front = false ->
          throwsOnFlush p = true ->
          attempted ps = front ++ [p]).
Proof.
  intros Hd He ps. destruct (isPendingUpload c) eqn:Hp.
  - now rewrite flush_eq, Hp.
  - rewrite (cycle_attempts c Hp Hd He). simpl.
    rewrite flushed_app, flushed_FlushPlugin.
    split; [reflexivity|]. split; [apply attempted_prefix|].
    split; [apply attempted_all_or_throw|]. split.
    + intros plugin.
      pose proof (entriesOf_prefix plugin _ _ (attempted_prefix ps)) as Hle.
      split; [exact Hle|]. split.
      * intros Hnd. pose proof (entriesOf_NoDup plugin ps Hnd). lia.
      * intros Hno. now rewrite attempted_all.
    + intros front rest p -> Hfront Hthrow.
      now apply attempted_first_throw.
Qed.

Lemma flush_in_flight_collapses_witness :
  let c := clientWithRetryingDestination in
  (destroyed c = false /\ events (store c) <> []) /\
  flushed (effects (fst (flush c))) = flushed (effects c) ++ [0%nat; 30%nat].
Proof.
  cbv zeta. split.
  - split; vm_compute; congruence.
  - apply (flush_in_flight_collapses clientWithRetryingDestination);
      vm_compute; congruence.
Defined.

(** A destination added twice is attempted twice in one cycle, once for
    each of its entries in the timeline; the in-flight guard has no part in
    that. *)
Example flush_cycle_two_attempts :
  let c := clientWithDestinationAddedTwice in
  events (store c) <> [] /\ isPendingUpload c = false /\ destroyed c = false /\
  entriesOf (pid healthyDestination) (getPluginsWithFlush (timeline c)) = 2%nat /\
  count_occ Nat.eq_dec (flushed (effects (fst (flush c)))) (pid healthyDestination) = 2%nat /\
  snd (flush c) = Fulfilled.
Proof. cbv zeta. repeat split; vm_compute; congruence. Qed.

(** ** C4: the tick counter *)



(** The counter after a [flush()] call. *)
Lemma flush_counter c :
  secondsElapsed (fst (flush c)) =
    if isPendingUpload c || destroyed c then secondsElapsed c else 0.
Proof.
  rewrite flush_eq. destruct (isPendingUpload c); [reflexivity|].
  destruct (destroyed c); [reflexivity|]. simpl. unfold afterCycle.
  destruct (0 <? length (events (store c)))%nat; reflexivity.
Qed.

(** A size-triggered flush is the same [flush] call as a manual one. *)
Lemma eventsWatcher_counter evs c :
  flushAt (config c) <= Z.of_nat (length evs) ->
  eventsWatcher evs c = fst (flush c) /\
  secondsElapsed (eventsWatcher evs c) =
    if isPendingUpload c || destroyed c then secondsElapsed c else 0.
Proof.
  intros H. unfold eventsWatcher.
  destruct (Z.geb_spec (Z.of_nat (length evs)) (flushAt (config c))) as [_|Hlt];
    [|lia].
  split; [reflexivity|apply flush_counter].
Qed.




(** The in-flight case of C4: the requests a plugin raises during a cycle
    reach the client in a state where the counter is already 0, and leave
    it so.  A cycle run with any other flush [f] that agrees with [flush]
    on such states is the same cycle. *)
Lemma enterCycle_inCycle c : inCycle (enterCycle c).
Proof. split; reflexivity. Qed.

Lemma flush_inCycle c : inCycle c -> flush c = (c, Fulfilled).
Proof. intros [H _]. now rewrite flush_eq, H. Qed.

Lemma inCycle_effects c l : inCycle c -> inCycle (set_effects l c).
Proof. destruct c; intros H; exact H. Qed.

Lemma forEachFlush_only_inCycle f ps c :
  (forall c, inCycle c -> f c = Some (flush c)) ->
  inCycle c ->
  Forall (fun p => hasFlush p = true) ps ->
  forEachFlush f ps c = forEachFlush (fun c => Some (flush c)) ps c.
Proof.
  intros Hf Hc Hps.
  rewrite !(forEachFlush_in_flight _ inCycle);
    try reflexivity; try assumption; try apply inCycle_effects.
  - intros c' H'. now rewrite flush_inCycle.
  - intros c' H'. now rewrite Hf, flush_inCycle.
Qed.

(** ** C2: operations after cleanup *)

Ltac unfold_ops :=
  unfold track, screen, identify, group, alias, reset, process, logger_info,
    emit, userInfo_set, userInfo_get, createTrackEvent, createScreenEvent,
    createIdentifyEvent, createGroupEvent, createAliasEvent, set_appState;
  cbn [effects store userInfo events context settings timeline config
       set_effects set_store anonymousId userId traits].

Ltac read_effects :=
  rewrite ?processed_app, ?logged_app, ?flushed_app, ?configured_app;
  cbn [processed logged flushed configured omap list_omap];
  rewrite ?app_nil_r.

(** C2, the claim as stated fails: on a destroyed client [track] still
    hands its event to the timeline and logs it, and [identify] still
    overwrites the stored user. *)
Lemma track_after_cleanup_dispatches :
  let c := destroyedClient in
  destroyed c = true /\
  processed (effects c) = [] /\
  processed (effects (track "Order Completed" None c)) =
    [TrackEvent "Order Completed" None] /\
  track "Order Completed" None c <> c /\
  userId (userInfo (store c)) = Some "current-user-id" /\
  userId (userInfo (store (identify "new-user-id" None c))) = Some "new-user-id".
Proof.
  cbv zeta. repeat split; vm_compute; congruence.
Qed.

Lemma flush_destroyed c : destroyed c = true -> flush c = (c, Fulfilled).
Proof. intros H. rewrite flush_eq, H. now destruct (isPendingUpload c). Qed.

(** C2, as the code has it: after [cleanup()] the destroyed flag is set and
    [flush] is the one operation that looks at it, returning with the
    client unchanged.  [process], [track], [screen], [group], [identify]
    and [alias] still hand their event to the timeline, and [identify],
    [alias] and [reset] still write the stored user info. *)
Theorem after_cleanup_only_flush_is_noop (c : SegmentClient)
    (name newId uuid : string) (options : option JsonMap)
    (incomingEvent : SegmentEvent) :
  let d := cleanup c in
  destroyed d = true /\
  flush d = (d, Fulfilled) /\
  processed (effects (process incomingEvent d)) =
    processed (effects d) ++ [incomingEvent] /\
  processed (effects (track name options d)) =
    processed (effects d) ++ [TrackEvent name options] /\
  processed (effects (screen name options d)) =
    processed (effects d) ++ [ScreenEvent name options] /\
  processed (effects (group name options d)) =
    processed (effects d) ++ [GroupEvent name options] /\
  processed (effects (identify newId options d)) =
    processed (effects d) ++
      [IdentifyEvent (spread2 (traits (userInfo (store d))) options)] /\
  processed (effects (alias newId d)) =
    processed (effects d) ++
      [AliasEvent (anonymousId (userInfo (store d))) (userId (userInfo (store d))) newId] /\
  userId (userInfo (store (identify newId options d))) = Some newId /\
  userId (userInfo (store (alias newId d))) = Some newId /\
  userInfo (store (reset uuid d)) =
    {| anonymousId := uuid; userId := None; traits := None |}.
Proof.
  cbv zeta. split; [reflexivity|]. split; [now apply flush_destroyed|].
  repeat split; unfold_ops; read_effects; reflexivity.
Qed.

(** ** C6: identify twice *)

Lemma identify_store u t c :
  userInfo (store (identify u t c)) =
    {| anonymousId := anonymousId (userInfo (store c));
       userId := Some u;
       traits := Some (spread2 (traits (userInfo (store c))) t) |}.
Proof. reflexivity. Qed.

Lemma identify_effects u t c :
  effects (identify u t c) =
    effects c ++
      [TimelineProcess (IdentifyEvent (spread2 (traits (userInfo (store c))) t))
         (userInfo (store (identify u t c)));
       LoggerInfo "IDENTIFY event saved"
         (Some (IdentifyEvent (spread2 (traits (userInfo (store c))) t)))].
Proof. unfold_ops. now rewrite <- app_assoc. Qed.

Lemma overridden_lookup (t1 t2 : JsonMap) k :
  overridden t1 t2 !! k =
    match t2 !! k with Some v => Some v | None => t1 !! k end.
Proof.
  unfold overridden. rewrite lookup_union.
  destruct (t2 !! k), (t1 !! k); reflexivity.
Qed.

(** C6, the claim as stated fails: on the store of
    methods/identify.test.ts, where the user already has the traits [name]
    and [age], the spec's two calls leave four traits stored, not
    [{a: 1, b: 2}]. *)
Lemma identify_twice_keeps_prior_traits :
  let c := identify "u2" (Some traits_a1) (identify "u1" (Some traits_a0_b2) testClient) in
  traits (userInfo (store c)) <> Some (overridden traits_a0_b2 traits_a1) /\
  traits (userInfo (store c)) =
    Some (list_to_map [("name", JString "Stacy"); ("age", JNumber 30);
                       ("a", JNumber 1); ("b", JNumber 2)]).
Proof.
  cbv zeta. split.
  - intros H.
    apply (f_equal (fun t => t ≫= (fun m : JsonMap => m !! "name"))) in H.
    vm_compute in H. discriminate.
  - vm_compute. reflexivity.
Qed.

(** C6, as the code has it: after [identify(u1, t1)] then
    [identify(u2, t2)] the stored traits are the traits stored before the
    first call overridden key by key with [t1] and then with [t2] (keys of
    [t2] win, then keys of [t1], then the earlier ones), the stored user id
    is [u2] and the anonymous id is untouched.  The second call hands the
    timeline an identify event holding exactly that trait set, which has no
    user-id field, and the user info read at that hand-over is already the
    merged state. *)
Theorem identify_twice_merges (u1 u2 : string) (t1 t2 : option JsonMap)
    (c : SegmentClient) :
  let t0 := traits (userInfo (store c)) in
  let c1 := identify u1 t1 c in
  let c2 := identify u2 t2 c1 in
  let merged := overridden (overridden (spread t0) (spread t1)) (spread t2) in
  traits (userInfo (store c2)) = Some merged /\
  userId (userInfo (store c2)) = Some u2 /\
  anonymousId (userInfo (store c2)) = anonymousId (userInfo (store c)) /\
  (forall k, merged !! k =
     match spread t2 !! k with
     | Some v => Some v
     | None => match spread t1 !! k with
               | Some v => Some v
               | None => spread t0 !! k
               end
     end) /\
  effects c2 =
    effects c1 ++
      [TimelineProcess (IdentifyEvent merged) (userInfo (store c2));
       LoggerInfo "IDENTIFY event saved" (Some (IdentifyEvent merged))].
Proof.
  cbv zeta. repeat split.
  - intros k. now rewrite !overridden_lookup.
  - now rewrite identify_effects.
Qed.

(** On a store without traits the result is [t1] overridden with [t2], as
    in the spec's example. *)
Lemma identify_twice_fresh (u1 u2 : string) (t1 t2 : option JsonMap)
    (c : SegmentClient) :
  traits (userInfo (store c)) = None ->
  traits (userInfo (store (identify u2 t2 (identify u1 t1 c)))) =
    Some (overridden (spread t1) (spread t2)).
Proof.
  intros H. rewrite !identify_store. simpl. rewrite H.
  unfold spread2, overridden, spread at 3. simpl.
  now rewrite (right_id_L ∅ (∪)).
Qed.

(** ** C7: alias *)

(** C7: [alias(newUserId)] builds its event from the anonymous id and the
    user id stored before the call, together with [newUserId]; only then is
    the stored user id overwritten.  The event handed to the timeline thus
    carries the pre-call user id as the old id, although the user info read
    at the hand-over already holds [newUserId]. *)
Theorem alias_captures_before_overwrite (newUserId : string) (c : SegmentClient) :
  let prior := userInfo (store c) in
  let c' := alias newUserId c in
  let event := AliasEvent (anonymousId prior) (userId prior) newUserId in
  effects c' =
    effects c ++ [TimelineProcess event (userInfo (store c'));
                  LoggerInfo "ALIAS event saved" (Some event)] /\
  userInfo (store c') =
    {| anonymousId := anonymousId prior; userId := Some newUserId;
       traits := traits prior |} /\
  events (store c') = events (store c).
Proof.
  cbv zeta. repeat split. unfold_ops. now rewrite <- app_assoc.
Qed.

(** On the test store: the old id in the event is the stored one. *)
Example alias_old_id_example :
  processed (effects (alias "new-user-id" testClient)) =
    [AliasEvent "very-anonymous" (Some "current-user-id") "new-user-id"] /\
  userId (userInfo (store (alias "new-user-id" testClient))) = Some "new-user-id".
Proof. split; vm_compute; reflexivity. Qed.

(** ** C8: reset *)

(** C8: [reset()] stores the identifier the generator issued, which by the
    generator's contract differs from the one stored before, and clears the
    user id and the traits, as the slice's [reset] reducer does; the
    buffered events, the timeline's plugins and the pending plugins are
    left as they were. *)
Theorem reset_replaces_identity (uuid : string) (c : SegmentClient) :
  issuedFor c uuid ->
  let c' := reset uuid c in
  anonymousId (userInfo (store c')) = uuid /\
  anonymousId (userInfo (store c')) <> anonymousId (userInfo (store c)) /\
  userId (userInfo (store c')) = None /\
  traits (userInfo (store c')) = None /\
  userInfo (store c') = userInfoSlice.reset uuid (userInfo (store c)) /\
  events (store c') = events (store c) /\
  timeline c' = timeline c /\
  getPlugins None c' = getPlugins None c /\
  pluginsToAdd c' = pluginsToAdd c.
Proof. intros H. cbv zeta. repeat split. exact H. Qed.

Lemma reset_replaces_identity_witness :
  issuedFor testClient "b0a4e1c2-fresh" /\
  anonymousId (userInfo (store (reset "b0a4e1c2-fresh" testClient))) <>
    anonymousId (userInfo (store testClient)).
Proof.
  assert (H : issuedFor testClient "b0a4e1c2-fresh") by (vm_compute; congruence).
  split; [exact H|].
  apply (reset_replaces_identity "b0a4e1c2-fresh" testClient H).
Defined.

(** ** C9: the startup check *)


(** The three cases of the startup check on concrete stores. *)
Example first_launch_example :
  processed (effects (checkInstalledVersion
                        {| app := {| version := "1.0"; build := "7" |} |} testClient)) =
    [applicationInstalled {| app := {| version := "1.0"; build := "7" |} |};
     applicationOpened false (JString "1.0") (JString "7")].
Proof. vm_compute. reflexivity. Qed.

Example updated_launch_example :
  let first := checkInstalledVersion
                 {| app := {| version := "1.0"; build := "7" |} |} testClient in
  let second := checkInstalledVersion
                  {| app := {| version := "1.1"; build := "8" |} |} first in
  processed (effects second) =
    processed (effects first) ++
      [TrackEvent "Application Updated"
         (Some (list_to_map [("version", JString "1.1"); ("build", JString "8");
                             ("previous_version", JString "1.0");
                             ("previous_build", JString "7")]));
       applicationOpened false (JString "1.1") (JString "8")].
Proof. vm_compute. reflexivity. Qed.

(** ** C10: app-state signals *)

(** C10: with lifecycle tracking enabled, a signal that takes the tracker
    from Inactive or Background to Active hands the timeline exactly one
    Application Opened event with [from_background = true]; one that takes
    it from Active to Inactive or Background, exactly one Application
    Backgrounded event; any other pair, nothing.  The last-known state
    becomes the new value in every case. *)
Theorem handleAppStateChange_transitions (nextAppState : AppStateStatus)
    (c : SegmentClient) :
  trackAppLifecycleEvents (config c) = true ->
  let c' := handleAppStateChange nextAppState c in
  processed (effects c') =
    processed (effects c) ++ transitionEvents (appState c) nextAppState (context_get c) /\
  appState c' = nextAppState.
Proof.
  intros Hon. cbv zeta.
  unfold handleAppStateChange, transitionEvents, applicationOpened,
    applicationBackgrounded, context_get.
  rewrite Hon. split; [|reflexivity].
  destruct (appState c), nextAppState;
    cbn [inactive_or_background andb bool_decide decide_rel];
    rewrite ?bool_decide_eq_true_2 by reflexivity;
    rewrite ?bool_decide_eq_false_2 by discriminate;
    cbn [andb]; unfold_ops; read_effects;
    rewrite <- ?app_assoc; reflexivity.
Qed.

Lemma handleAppStateChange_transitions_witness :
  trackAppLifecycleEvents (config backgroundedClient) = true /\
  appState backgroundedClient = background /\
  processed (effects (handleAppStateChange active backgroundedClient)) =
    processed (effects backgroundedClient) ++
      transitionEvents (appState backgroundedClient) active
        (context_get backgroundedClient).
Proof.
  split; [vm_compute; reflexivity|]. split; [vm_compute; reflexivity|].
  apply (handleAppStateChange_transitions active backgroundedClient).
  vm_compute. reflexivity.
Defined.

(** The last-known state follows the signal whether tracking is on or off,
    and with tracking off nothing is handed over. *)
Lemma handleAppStateChange_state (nextAppState : AppStateStatus) (c : SegmentClient) :
  appState (handleAppStateChange nextAppState c) = nextAppState /\
  (if trackAppLifecycleEvents (config c) then True
   else effects (handleAppStateChange nextAppState c) = effects c).
Proof.
  split; [reflexivity|].
  unfold handleAppStateChange.
  destruct (trackAppLifecycleEvents (config c)); [exact I|reflexivity].
Qed.

Example background_to_active_example :
  processed (effects (handleAppStateChange active backgroundedClient)) =
    processed (effects backgroundedClient) ++
      [applicationOpened true (JString "1.0") (JString "7")] /\
  processed (effects (handleAppStateChange background backgroundedClient)) =
    processed (effects backgroundedClient).
Proof. split; vm_compute; reflexivity. Qed.

(** ** C1: the readiness gate *)

Lemma addPlugin_plain p c :
  plain p ->
  addPlugin p c = set_timeline (Timeline.add p (timeline c)) (emit (Configure (pid p)) c).
Proof. destruct p as [i ty k qs fm]. unfold plain. simpl. intros ->. reflexivity. Qed.

Lemma gateView_add_queued p s c q a e t :
  gateView c = (false, q, a, e, t) ->
  gateView (add p s c) = (false, q ++ [p], a, e, t).
Proof.
  unfold gateView, add, add_with. destruct c. cbn.
  intros H. inversion H; subst.
  destruct s as [s|]; [destruct (type p)|]; reflexivity.
Qed.

Lemma gateView_add_ready p s c q a e t :
  plain p ->
  gateView c = (true, q, a, e, t) ->
  gateView (add p s c) = (true, q, a, e ++ [Configure (pid p)], Timeline.add p t).
Proof.
  unfold gateView, add, add_with. destruct c. cbn.
  intros Hp H. inversion H; subst.
  destruct s as [s|]; [destruct (type p)|];
    cbn; rewrite addPlugin_plain by exact Hp; reflexivity.
Qed.

Lemma gateView_drain ps : forall c r q a e t,
  Forall plain ps ->
  gateView c = (r, q, a, e, t) ->
  gateView (foldl (fun c plugin => addPlugin plugin c) c ps) =
    (r, q, a, e ++ configureAll ps, registerAll ps t).
Proof.
  induction ps as [|p ps IH]; intros c r q a e t Hps H; simpl.
  - now rewrite app_nil_r.
  - inversion Hps as [|? ? Hp Hps']; subst.
    rewrite (IH (addPlugin p c) r q a (e ++ [Configure (pid p)])
               (Timeline.add p t) Hps').
    + unfold configureAll. simpl. now rewrite <- app_assoc.
    + rewrite addPlugin_plain by exact Hp. unfold gateView in *.
      inversion H; subst. reflexivity.
Qed.

Lemma gateView_signal c q e t :
  q <> [] ->
  Forall plain q ->
  gateView c = (false, q, false, e, t) ->
  gateView (onStorageReady true c) =
    (true, [], false, e ++ configureAll q, registerAll q t).
Proof.
  intros Hq Hpl H. unfold onStorageReady.
  unfold gateView in H. injection H as Hr Hq' Ha He Ht.
  subst q e t.
  rewrite Ha, (nonempty_length _ Hq). cbn [andb negb].
  replace (pluginsToAdd (set_isAddingPlugins true c)) with (pluginsToAdd c)
    by reflexivity.
  pose proof (gateView_drain (pluginsToAdd c) (set_isAddingPlugins true c)
                (isStorageReady c) (pluginsToAdd c) true (effects c) (timeline c)
                Hpl eq_refl)
    as Hd.
  set (X := foldl _ _ _) in *.
  unfold gateView in Hd. injection Hd as Hr' Hq'' Ha' He' Ht'.
  rewrite <- He', <- Ht'.
  unfold gateView, unsubscribeReadinessWatcher, set_isAddingPlugins,
    set_isStorageReady, set_pluginsToAdd.
  cbn [isStorageReady pluginsToAdd isAddingPlugins effects timeline].
  reflexivity.
Qed.

(** Before the signal, [add] only queues; a false signal does nothing. *)
Lemma gateView_run_queued calls : forall c q a e t,
  quiet calls = true ->
  gateView c = (false, q, a, e, t) ->
  gateView (run calls c) = (false, q ++ added calls, a, e, t).
Proof.
  induction calls as [|g calls IH]; intros c q a e t Hq H.
  - simpl. now rewrite app_nil_r.
  - simpl in Hq. apply andb_prop in Hq as [Hg Hq].
    change (run (g :: calls) c) with (run calls (gateCall g c)).
    destruct g as [p s|b].
    + change (added (CallAdd p s :: calls)) with (p :: added calls).
      change (gateCall (CallAdd p s) c) with (add p s c).
      rewrite (IH (add p s c) (q ++ [p]) a e t Hq
                 (gateView_add_queued p s c q a e t H)).
      now rewrite <- app_assoc.
    + destruct b; [discriminate|].
      change (added (Signal false :: calls)) with (added calls).
      change (gateCall (Signal false) c) with c.
      now apply IH.
Qed.

(** Once ready, [add] configures and registers at once, and readiness
    signals of either value find the queue empty and do nothing. *)
Lemma gateView_run_ready calls : forall c e t,
  Forall plain (added calls) ->
  gateView c = (true, [], false, e, t) ->
  gateView (run calls c) =
    (true, [], false, e ++ configureAll (added calls), registerAll (added calls) t).
Proof.
  induction calls as [|g calls IH]; intros c e t Hpl H.
  - simpl. now rewrite app_nil_r.
  - change (run (g :: calls) c) with (run calls (gateCall g c)).
    destruct g as [p s|b].
    + change (added (CallAdd p s :: calls)) with (p :: added calls) in *.
      inversion Hpl as [|? ? Hp Hpl']; subst.
      change (gateCall (CallAdd p s) c) with (add p s c).
      rewrite (IH (add p s c) (e ++ [Configure (pid p)]) (Timeline.add p t) Hpl'
                 (gateView_add_ready p s c [] false e t Hp H)).
      unfold configureAll. simpl. now rewrite <- app_assoc.
    + change (added (Signal b :: calls)) with (added calls) in *.
      replace (gateCall (Signal b) c) with c; [now apply IH|].
      unfold gateView in H. injection H as Hr Hq Ha He Ht.
      simpl. unfold onStorageReady. rewrite Hq. simpl.
      now rewrite andb_false_r.
Qed.

Lemma registerAll_app ps qs t :
  registerAll (ps ++ qs) t = registerAll qs (registerAll ps t).
Proof. unfold registerAll. apply foldl_app. Qed.

Lemma configureAll_app ps qs :
  configureAll (ps ++ qs) = configureAll ps ++ configureAll qs.
Proof. unfold configureAll. apply map_app. Qed.

Lemma configured_configureAll ps : configured (configureAll ps) = map pid ps.
Proof.
  induction ps as [|p ps IH]; [reflexivity|].
  change (configured (configureAll (p :: ps)))
    with (pid p :: configured (configureAll ps)).
  now rewrite IH.
Qed.

(** The buckets after registering [ps]: each stage gains the plugins of its
    type, in order. *)
Lemma registerAll_plugins ps : forall t ty,
  Timeline.plugins (registerAll ps t) ty =
    Timeline.plugins t ty ++ filter (fun p => type p = ty) ps.
Proof.
  induction ps as [|p ps IH]; intros t ty.
  - simpl. now rewrite app_nil_r.
  - change (registerAll (p :: ps) t) with (registerAll ps (Timeline.add p t)).
    rewrite IH, filter_cons. unfold Timeline.add.
    destruct (type p) eqn:Ety, ty; simpl;
      try (destruct (decide _) as [Hd|Hd]; [discriminate Hd|]);
      try (destruct (decide _) as [Hd|Hd]; [|congruence]);
      rewrite <- ?app_assoc; reflexivity.
Qed.

(** What the gate guarantees when no plugin calls [add] from its
    [configure]: for calls [pre] before the one true signal and [post]
    after it (false signals allowed before, signals of either value
    after), every plugin queued or added is configured once and registered
    once, in the order of the [add] calls, and the gate ends ready with an
    empty queue. *)
Theorem gate_registers_in_order (pre post : list GateCall) (c : SegmentClient) :
  isStorageReady c = false ->
  isAddingPlugins c = false ->
  quiet pre = true ->
  pluginsToAdd c ++ added pre <> [] ->
  Forall plain (pluginsToAdd c ++ added pre ++ added post) ->
  let all := pluginsToAdd c ++ added pre ++ added post in
  let c' := run (pre ++ Signal true :: post) c in
  isStorageReady c' = true /\
  pluginsToAdd c' = [] /\
  configured (effects c') = configured (effects c) ++ map pid all /\
  (forall ty, Timeline.plugins (timeline c') ty =
                Timeline.plugins (timeline c) ty ++ filter (fun p => type p = ty) all).
Proof.
  intros Hr Ha Hq Hne Hpl all c'. subst all c'.
  assert (Hrun : run (pre ++ Signal true :: post) c =
                 run post (onStorageReady true (run pre c)))
    by (unfold run; now rewrite foldl_app).
  rewrite Hrun. clear Hrun.
  rewrite app_assoc in Hpl. apply Forall_app in Hpl as [Hpl1 Hpl2].
  pose proof (gateView_run_queued pre c (pluginsToAdd c) false (effects c) (timeline c) Hq) as H1.
  unfold gateView at 1 in H1. rewrite Hr, Ha in H1. specialize (H1 eq_refl).
  pose proof (gateView_signal _ _ _ _ Hne Hpl1 H1) as H2.
  pose proof (gateView_run_ready post _ _ _ Hpl2 H2) as H3.
  unfold gateView in H3. injection H3 as E1 E2 E3 E4 E5.
  split; [exact E1|]. split; [exact E2|]. split.
  - rewrite E4, !configured_app, !configured_configureAll, !map_app, <- !app_assoc.
    reflexivity.
  - intros ty.
    rewrite E5, !registerAll_plugins, !filter_app, <- !app_assoc.
    reflexivity.
Qed.

Lemma gate_registers_in_order_witness :
  let pre := [CallAdd failingDestination None; Signal false] in
  let post := [CallAdd healthyDestination None; Signal true] in
  configured (effects (run (pre ++ Signal true :: post) newClient)) =
    configured (effects newClient) ++
      map pid (pluginsToAdd newClient ++ added pre ++ added post).
Proof.
  cbv zeta.
  apply (gate_registers_in_order
           [CallAdd failingDestination None; Signal false]
           [CallAdd healthyDestination None; Signal true] newClient);
    try (vm_compute; congruence).
  vm_compute. repeat constructor.
Defined.

(** The constructor always queues the context plugin, so a client that is
    not ready has a non-empty queue: the first true signal never finds the
    queue empty. *)
Lemma new_client_queue sd ic cfg st :
  let c := new_SegmentClient sd ic cfg st in
  isStorageReady c = false /\ isAddingPlugins c = false /\
  pluginsToAdd c = (if autoAddSegmentDestination cfg then [sd] else []) ++ [ic] /\
  effects c = [].
Proof.
  cbv zeta. unfold new_SegmentClient, platformPlugins, add, add_with.
  destruct (autoAddSegmentDestination cfg); repeat split.
Qed.

(** C1, at the failing input: the application adds [introducer] before the
    store is ready; the signal arrives; while the queue is drained,
    [introducer.configure] adds [lateComer].  The gate is not ready yet at
    that instant, so [lateComer] is pushed onto the queue that [forEach] is
    walking, which does not visit it, and the queue is then replaced by an
    empty one.  The gate ends ready with nothing pending, and [lateComer]
    has been neither configured nor registered; a further signal changes
    nothing.  The three plugins added without re-entrancy are configured
    and registered once, in order. *)
Theorem gate_drops_plugin_added_during_drain :
  let c := run [CallAdd introducer None; Signal true] newClient in
  isStorageReady c = true /\
  pluginsToAdd c = [] /\
  configured (effects c) = [0; 1; 10]%nat /\
  getPlugins None c = [injectContext; introducer; segmentDestination] /\
  (pid lateComer ∉ configured (effects c)) /\
  (lateComer ∉ getPlugins None c) /\
  onStorageReady true c = c.
Proof.
  cbv zeta. repeat split; try (vm_compute; congruence).
  - vm_compute. intros H. apply list_elem_of_In in H. simpl in H.
    repeat destruct H as [H|H]; try discriminate; exact H.
  - vm_compute. intros H. apply list_elem_of_In in H. simpl in H.
    repeat destruct H as [H|H]; try discriminate; exact H.
Qed.

(** The same plugin added after the gate is ready is registered, but
    ahead of the plugin that introduced it: [configure] runs before
    [timeline.add]. *)
Example add_during_configure_when_ready :
  let c := run [Signal true; CallAdd introducer None] newClient in
  configured (effects c) = [0; 1; 10; 11]%nat /\
  getPlugins (Some enrichment) c = [lateComer; introducer].
Proof. cbv zeta. split; vm_compute; reflexivity. Qed.

(** For a client built by the constructor the queue is never empty when the
    first true signal arrives, so the gate needs nothing but plugins that
    do not call [add] from [configure]. *)
Corollary gate_from_constructor (sd ic : Plugin) (cfg : Config) (st : Storage)
    (pre post : list GateCall) :
  quiet pre = true ->
  plain sd -> plain ic ->
  Forall plain (added pre ++ added post) ->
  let c := new_SegmentClient sd ic cfg st in
  let all := pluginsToAdd c ++ added pre ++ added post in
  let c' := run (pre ++ Signal true :: post) c in
  isStorageReady c' = true /\
  pluginsToAdd c' = [] /\
  configured (effects c') = map pid all /\
  (forall ty, Timeline.plugins (timeline c') ty = filter (fun p => type p = ty) all).
Proof.
  intros Hq Hsd Hic Hpl c all c'.
  destruct (new_client_queue sd ic cfg st) as (Hr & Ha & Hqueue & He).
  fold c in Hr, Ha, Hqueue, He.
  assert (Hne : pluginsToAdd c ++ added pre <> []).
  { rewrite Hqueue. destruct (autoAddSegmentDestination cfg); discriminate. }
  assert (Hall : Forall plain (pluginsToAdd c ++ added pre ++ added post)).
  { apply Forall_app. split; [|exact Hpl]. rewrite Hqueue.
    destruct (autoAddSegmentDestination cfg); repeat constructor; assumption. }
  destruct (gate_registers_in_order pre post c Hr Ha Hq Hne Hall)
    as (H1 & H2 & H3 & H4).
  fold all in H3, H4. fold c' in H1, H2, H3, H4.
  rewrite He in H3. repeat split; try assumption.
  intros ty. rewrite H4.
  replace (timeline c) with Timeline.empty; [now destruct ty|].
  subst c. unfold new_SegmentClient, platformPlugins, add, add_with.
  now destruct (autoAddSegmentDestination cfg).
Qed.

(** * Further properties *)

(** ** Plugins that add plugins: what [addPlugin] does *)

(** Induction over a plugin and the plugins its [configure] adds. *)
Lemma Plugin_nested_ind (P : Plugin -> Prop)
    (H : forall i ty k qs fm, Forall P qs -> P (mkPlugin i ty k qs fm)) :
  forall p : Plugin, P p.
Proof.
  fix IH 1. intros [i ty k qs fm]. apply H.
  induction qs as [|q qs IHqs]; constructor.
  - apply IH.
  - exact IHqs.
Qed.

Lemma addPlugin_unfold p c :
  addPlugin p c =
    let c1 := emit (Configure (pid p)) c in
    let c2 := foldl (fun c q => add_with addPlugin q None c) c1 (onConfigure p) in
    set_timeline (Timeline.add p (timeline c2)) c2.
Proof. destruct p; reflexivity. Qed.

(** While the gate is not ready, the plugins a [configure] adds are only
    queued. *)
Lemma children_queued qs : forall c,
  isStorageReady c = false ->
  foldl (fun c q => add_with addPlugin q None c) c qs =
    set_pluginsToAdd (pluginsToAdd c ++ qs) c.
Proof.
  induction qs as [|q qs IH]; intros c Hr; simpl.
  - rewrite app_nil_r. destruct c; reflexivity.
  - unfold add_with at 2. rewrite Hr. cbn [negb].
    rewrite IH by (destruct c; exact Hr).
    destruct c; simpl. rewrite <- app_assoc. reflexivity.
Qed.

Lemma addPlugin_not_ready p c :
  isStorageReady c = false ->
  addPlugin p c =
    set_timeline (Timeline.add p (timeline c))
      (set_pluginsToAdd (pluginsToAdd c ++ onConfigure p)
         (emit (Configure (pid p)) c)).
Proof.
  intros Hr. rewrite addPlugin_unfold. cbv zeta.
  rewrite children_queued by (destruct c; exact Hr).
  destruct c; reflexivity.
Qed.

(** On a ready client the plugins a [configure] adds go through
    [addPlugin] themselves, before their parent is registered. *)
Lemma addPlugin_ready p : forall c,
  isStorageReady c = true ->
  addPlugin p c =
    set_timeline (registerTree p (timeline c))
      (set_effects (effects c ++ map Configure (configureOrder p)) c).
Proof.
  induction p as [i ty k qs fm IH] using Plugin_nested_ind. intros c Hr.
  rewrite addPlugin_unfold. cbv zeta.
  cbn [pid onConfigure configureOrder registerTree].
  assert (Hkids : forall c0, isStorageReady c0 = true ->
            foldl (fun c q => add_with addPlugin q None c) c0 qs =
              set_timeline (foldl (fun t q => registerTree q t) (timeline c0) qs)
                (set_effects (effects c0 ++ map Configure (flat_map configureOrder qs)) c0)).
  { clear Hr c. induction IH as [|q qs Hq _ IHqs]; intros c0 Hr0.
    - simpl. rewrite app_nil_r. destruct c0; reflexivity.
    - cbn [foldl flat_map]. unfold add_with at 2. rewrite Hr0. cbn [negb].
      rewrite (Hq c0 Hr0), IHqs by (destruct c0; exact Hr0).
      destruct c0; simpl. rewrite map_app, <- app_assoc. reflexivity. }
  rewrite Hkids by (destruct c; exact Hr).
  destruct c; simpl. rewrite <- app_assoc. reflexivity.
Qed.

Lemma add_unfold p s c :
  add p s c =
    if isStorageReady c
    then addPlugin p (withSettings p s c)
    else set_pluginsToAdd (pluginsToAdd c ++ [p]) (withSettings p s c).
Proof.
  unfold add, add_with, withSettings.
  destruct s as [s|]; [destruct (type p)|]; destruct c as [? ? ? ? ? ? ? ? ? ? ? r ? ? ?];
    destruct r; reflexivity.
Qed.

Lemma withSettings_fields p s c :
  config (withSettings p s c) = config c /\
  secondsElapsed (withSettings p s c) = secondsElapsed c /\
  destroyed (withSettings p s c) = destroyed c /\
  isPendingUpload (withSettings p s c) = isPendingUpload c /\
  isAddingPlugins (withSettings p s c) = isAddingPlugins c /\
  isStorageReady (withSettings p s c) = isStorageReady c /\
  pluginsToAdd (withSettings p s c) = pluginsToAdd c /\
  timeline (withSettings p s c) = timeline c /\
  effects (withSettings p s c) = effects c /\
  appState (withSettings p s c) = appState c /\
  userInfo (store (withSettings p s c)) = userInfo (store c) /\
  context (store (withSettings p s c)) = context (store c) /\
  events (store (withSettings p s c)) = events (store c).
Proof. unfold withSettings. destruct s; [destruct (type p)|]; repeat split. Qed.

(** ** How each call leaves the client *)

Lemma configured_FlushPlugin ps :
  configured (map (fun p => FlushPlugin (pid p)) ps) = [].
Proof. induction ps as [|p ps IH]; [reflexivity|exact IH]. Qed.

Lemma processed_FlushPlugin ps :
  processed (map (fun p => FlushPlugin (pid p)) ps) = [].
Proof. induction ps as [|p ps IH]; [reflexivity|exact IH]. Qed.

Lemma logged_FlushPlugin ps :
  logged (map (fun p => FlushPlugin (pid p)) ps) = [].
Proof. induction ps as [|p ps IH]; [reflexivity|exact IH]. Qed.

Lemma configured_Configure l : configured (map Configure l) = l.
Proof.
  induction l as [|x l IH]; [reflexivity|].
  change (configured (map Configure (x :: l))) with (x :: configured (map Configure l)).
  now rewrite IH.
Qed.

Lemma flushed_Configure l : flushed (map Configure l) = [].
Proof. induction l as [|x l IH]; [reflexivity|exact IH]. Qed.

Lemma processed_Configure l : processed (map Configure l) = [].
Proof. induction l as [|x l IH]; [reflexivity|exact IH]. Qed.

Lemma logged_Configure l : logged (map Configure l) = [].
Proof. induction l as [|x l IH]; [reflexivity|exact IH]. Qed.

Lemma flushed_configureAll l : flushed (configureAll l) = [].
Proof. induction l as [|x l IH]; [reflexivity|exact IH]. Qed.

Lemma processed_configureAll l : processed (configureAll l) = [].
Proof. induction l as [|x l IH]; [reflexivity|exact IH]. Qed.

Lemma flush_fields c :
  let c' := fst (flush c) in
  config c' = config c /\ store c' = store c /\ appState c' = appState c /\
  appStateSubscription c' = appStateSubscription c /\
  flushIntervalTimer c' = flushIntervalTimer c /\ watchers c' = watchers c /\
  destroyed c' = destroyed c /\ isPendingUpload c' = isPendingUpload c /\
  isAddingPlugins c' = isAddingPlugins c /\ timeline c' = timeline c /\
  isStorageReady c' = isStorageReady c /\ pluginsToAdd c' = pluginsToAdd c /\
  isInitialized c' = isInitialized c /\
  configured (effects c') = configured (effects c) /\
  processed (effects c') = processed (effects c) /\
  logged (effects c') = logged (effects c) /\
  flushed (effects c') =
    flushed (effects c) ++
      (if isPendingUpload c || destroyed c then [] else cycleAttempts c).
Proof.
  cbv zeta. rewrite flush_eq. unfold cycleAttempts.
  destruct (isPendingUpload c) eqn:Hp; [rewrite app_nil_r; repeat split; exact Hp|].
  destruct (destroyed c) eqn:Hd; [rewrite app_nil_r; repeat split; assumption|].
  unfold afterCycle. cbn [orb].
  destruct (0 <? length (events (store c)))%nat; cbn [fst].
  - cbn [set_effects set_secondsElapsed config store appState appStateSubscription
         flushIntervalTimer watchers destroyed isPendingUpload isAddingPlugins
         timeline isStorageReady pluginsToAdd isInitialized effects].
    rewrite configured_app, processed_app, logged_app, flushed_app,
      configured_FlushPlugin, processed_FlushPlugin, logged_FlushPlugin,
      flushed_FlushPlugin, !app_nil_r.
    repeat split; assumption.
  - rewrite app_nil_r. repeat split; assumption.
Qed.

Ltac fields :=
  cbn [config store secondsElapsed appState appStateSubscription
       flushIntervalTimer watchers destroyed isPendingUpload isAddingPlugins
       timeline isStorageReady pluginsToAdd isInitialized effects
       set_store set_secondsElapsed set_appState set_isPendingUpload
       set_isAddingPlugins set_timeline set_isStorageReady set_pluginsToAdd
       set_effects emit userInfo events context settings
       anonymousId userId traits fst snd].

Ltac effects_away :=
  rewrite ?configured_app, ?processed_app, ?logged_app, ?flushed_app,
    ?configured_Configure, ?flushed_Configure, ?processed_Configure,
    ?logged_Configure, ?configured_configureAll, ?flushed_configureAll,
    ?processed_configureAll, ?app_nil_r.

(** What [addPlugin] leaves alone, whatever the plugin and the gate's
    state. *)
Lemma addPlugin_fields p c :
  let c' := addPlugin p c in
  config c' = config c /\ store c' = store c /\
  secondsElapsed c' = secondsElapsed c /\ appState c' = appState c /\
  destroyed c' = destroyed c /\ isPendingUpload c' = isPendingUpload c /\
  isAddingPlugins c' = isAddingPlugins c /\
  isStorageReady c' = isStorageReady c /\
  flushed (effects c') = flushed (effects c) /\
  processed (effects c') = processed (effects c) /\
  logged (effects c') = logged (effects c).
Proof.
  cbv zeta. destruct (isStorageReady c) eqn:Hr.
  - rewrite addPlugin_ready by exact Hr. fields. effects_away.
    repeat split; assumption.
  - rewrite addPlugin_not_ready by exact Hr. fields. effects_away.
    repeat split; assumption.
Qed.

Lemma drain_fields ps : forall c,
  let c' := foldl (fun c plugin => addPlugin plugin c) c ps in
  config c' = config c /\ store c' = store c /\
  secondsElapsed c' = secondsElapsed c /\ appState c' = appState c /\
  destroyed c' = destroyed c /\ isPendingUpload c' = isPendingUpload c /\
  isAddingPlugins c' = isAddingPlugins c /\
  isStorageReady c' = isStorageReady c /\
  flushed (effects c') = flushed (effects c) /\
  processed (effects c') = processed (effects c) /\
  logged (effects c') = logged (effects c).
Proof.
  induction ps as [|p ps IH]; intros c; cbv zeta.
  - repeat split.
  - cbn [foldl].
    destruct (IH (addPlugin p c)) as (I1 & I2 & I3 & I4 & I5 & I6 & I7 & I8 & I9 & I10 & I11).
    destruct (addPlugin_fields p c) as (A1 & A2 & A3 & A4 & A5 & A6 & A7 & A8 & A9 & A10 & A11).
    repeat split; congruence.
Qed.

Lemma onStorageReady_fields b c :
  let c' := onStorageReady b c in
  config c' = config c /\ store c' = store c /\
  secondsElapsed c' = secondsElapsed c /\ appState c' = appState c /\
  destroyed c' = destroyed c /\ isPendingUpload c' = isPendingUpload c /\
  flushed (effects c') = flushed (effects c) /\
  processed (effects c') = processed (effects c) /\
  logged (effects c') = logged (effects c).
Proof.
  cbv zeta. unfold onStorageReady.
  destruct (b && (0 <? length (pluginsToAdd c))%nat && negb (isAddingPlugins c));
    [|repeat split].
  unfold unsubscribeReadinessWatcher. fields.
  destruct (drain_fields (pluginsToAdd c) (set_isAddingPlugins true c))
    as (I1 & I2 & I3 & I4 & I5 & I6 & I7 & I8 & I9 & I10 & I11).
  repeat split; assumption.
Qed.

Lemma add_fields p s c :
  let c' := add p s c in
  config c' = config c /\
  userInfo (store c') = userInfo (store c) /\
  context (store c') = context (store c) /\
  events (store c') = events (store c) /\
  secondsElapsed c' = secondsElapsed c /\ appState c' = appState c /\
  destroyed c' = destroyed c /\ isPendingUpload c' = isPendingUpload c /\
  flushed (effects c') = flushed (effects c) /\
  processed (effects c') = processed (effects c) /\
  logged (effects c') = logged (effects c).
Proof.
  cbv zeta. rewrite add_unfold.
  destruct (withSettings_fields p s c)
    as (W1 & W2 & W3 & W4 & W5 & W6 & W7 & W8 & W9 & W10 & W11 & W12 & W13).
  destruct (isStorageReady c).
  - destruct (addPlugin_fields p (withSettings p s c))
      as (A1 & A2 & A3 & A4 & A5 & A6 & A7 & A8 & A9 & A10 & A11).
    rewrite A1, A2, A3, A4, A5, A6, A9, A10, A11, W9. repeat split; assumption.
  - fields. rewrite W9. repeat split; assumption.
Qed.

Ltac unfold_calls :=
  unfold call, handleAppStateChange, checkInstalledVersion,
    client_trackDeepLinks, track, screen, identify, group, alias, reset;
  unfold process, logger_info, getConfig, context_get, context_set,
    userInfo_set, userInfo_get, createTrackEvent, createScreenEvent,
    createIdentifyEvent, createGroupEvent, createAliasEvent.

Lemma quiet_calls k c : isQuiet k = true -> quietly c (call k c).
Proof.
  unfold quietly. destruct k as [plugin sett|isReady|ev|nm opt|nm opt|gid gtr|uid utr|nid|uu| | |evs|nxt|ctx|url| | | | |rp|qe|gone|pctx]; try discriminate; intros _; unfold_calls;
    repeat case_match; fields; read_effects; repeat split.
Qed.

Lemma quiet_calls_store k c :
  isQuiet k = true ->
  (if isReset k then True
   else anonymousId (userInfo (store (call k c))) = anonymousId (userInfo (store c))) /\
  (if writesContext k then True
   else context (store (call k c)) = context (store c)).
Proof.
  destruct k as [plugin sett|isReady|ev|nm opt|nm opt|gid gtr|uid utr|nid|uu| | |evs|nxt|ctx|url| | | | |rp|qe|gone|pctx]; try discriminate; intros _; cbn [isReset writesContext];
    unfold_calls; repeat case_match; fields; repeat split.
Qed.

(** What no call changes, and what only one kind of call changes. *)
Lemma call_keeps k c :
  let c' := call k c in
  config c' = config c /\
  isPendingUpload c' = isPendingUpload c /\
  (if writesEvents k then True
   else events (store c') = events (store c)) /\
  (if destroyed c
   then destroyed c' = true /\ flushed (effects c') = flushed (effects c)
   else True) /\
  (if isReset k then True
   else anonymousId (userInfo (store c')) = anonymousId (userInfo (store c))) /\
  (if writesContext k then True
   else context (store c') = context (store c)).
Proof.
  cbv zeta. destruct (isQuiet k) eqn:Hq.
  - destruct (quiet_calls k c Hq)
      as (Q1 & Q2 & Q3 & Q4 & Q5 & Q6 & Q7 & Q8 & Q9 & Q10 & Q11 & Q12 & Q13 & Q14 & Q15 & Q16).
    destruct (quiet_calls_store k c Hq) as (S1 & S2).
    split; [assumption|]. split; [assumption|].
    split; [destruct (writesEvents k); [exact I|assumption]|].
    split; [|split; assumption].
    destruct (destroyed c) eqn:Hd; [|exact I]. split; congruence.
  - destruct k as [plugin sett|isReady|ev|nm opt|nm opt|gid gtr|uid utr|nid|uu| | |evs|nxt|ctx|url| | | | |rp|qe|gone|pctx]; try discriminate; cbn [call isReset writesContext writesEvents].
    + destruct (add_fields plugin sett c)
        as (A1 & A2 & A3 & A4 & A5 & A6 & A7 & A8 & A9 & A10 & A11).
      repeat split; try congruence.
      destruct (destroyed c) eqn:Hd; [|exact I]. split; congruence.
    + destruct (onStorageReady_fields isReady c)
        as (A1 & A2 & A3 & A4 & A5 & A6 & A7 & A8 & A9).
      repeat split; try congruence.
      destruct (destroyed c) eqn:Hd; [|exact I]. split; congruence.
    + destruct (flush_fields c)
        as (F1 & F2 & F3 & F4 & F5 & F6 & F7 & F8 & F9 & F10 & F11 & F12 & F13 & F14 & F15 & F16 & F17).
      repeat split; try congruence.
      destruct (destroyed c) eqn:Hd; [|exact I]. split; [congruence|].
      rewrite F17, orb_true_r. apply app_nil_r.
    + unfold tick.
      destruct (flush_fields c)
        as (F1 & F2 & F3 & F4 & F5 & F6 & F7 & F8 & F9 & F10 & F11 & F12 & F13 & F14 & F15 & F16 & F17).
      destruct (secondsElapsed c + 1 >=? flushInterval (config c)).
      * repeat split; try congruence.
        destruct (destroyed c) eqn:Hd; [|exact I]. split; [congruence|].
        rewrite F17, orb_true_r. apply app_nil_r.
      * fields. repeat split. destruct (destroyed c); [split; reflexivity|exact I].
    + unfold eventsWatcher.
      destruct (flush_fields c)
        as (F1 & F2 & F3 & F4 & F5 & F6 & F7 & F8 & F9 & F10 & F11 & F12 & F13 & F14 & F15 & F16 & F17).
      destruct (Z.of_nat (length evs) >=? flushAt (config c)).
      * repeat split; try congruence.
        destruct (destroyed c) eqn:Hd; [|exact I]. split; [congruence|].
        rewrite F17, orb_true_r. apply app_nil_r.
      * repeat split. destruct (destroyed c); [split; reflexivity|exact I].
    + unfold setupInterval. fields. repeat split.
      destruct (destroyed c); [split; reflexivity|exact I].
    + unfold setupStorageSubscribers. fields. repeat split.
      destruct (destroyed c); [split; reflexivity|exact I].
    + unfold setupLifecycleEvents. fields. repeat split.
      destruct (destroyed c); [split; reflexivity|exact I].
    + unfold cleanup, unsubscribeReadinessWatcher. fields. repeat split.
      destruct (destroyed c); [split; reflexivity|exact I].
    + unfold remove. fields. repeat split.
      destruct (destroyed c); [split; reflexivity|exact I].
    + unfold queueEvent, events_add. fields. repeat split.
      destruct (destroyed c); [split; reflexivity|exact I].
    + unfold removeEvents, events_remove. fields. repeat split.
      destruct (destroyed c); [split; reflexivity|exact I].
Qed.

Lemma calls_snoc ks k c : calls (ks ++ [k]) c = call k (calls ks c).
Proof. unfold calls. now rewrite foldl_app. Qed.

Lemma calls_cons k ks c : calls (k :: ks) c = calls ks (call k c).
Proof. reflexivity. Qed.

(** ** The gate between calls *)

Lemma allPlugins_add p t : allPlugins (Timeline.add p t) ≡ₚ allPlugins t ++ [p].
Proof.
  unfold allPlugins, Timeline.add.
  destruct (type p); cbn [Timeline.plugins beforePlugins enrichmentPlugins
    utilityPlugins destinationPlugins afterPlugins]; solve_Permutation.
Qed.

Lemma pids_add p t :
  map pid (allPlugins (Timeline.add p t)) ≡ₚ map pid (allPlugins t) ++ [pid p].
Proof. rewrite allPlugins_add, map_app. reflexivity. Qed.

Lemma pids_registerAll q : forall t,
  map pid (allPlugins (registerAll q t)) ≡ₚ map pid (allPlugins t) ++ map pid q.
Proof.
  induction q as [|p q IH]; intros t.
  - simpl. now rewrite app_nil_r.
  - change (registerAll (p :: q) t) with (registerAll q (Timeline.add p t)).
    rewrite IH, pids_add. cbn [map]. rewrite <- app_assoc. reflexivity.
Qed.

Lemma pids_registerTree p : forall t,
  map pid (allPlugins (registerTree p t)) ≡ₚ
    map pid (allPlugins t) ++ configureOrder p.
Proof.
  induction p as [i ty k qs fm IH] using Plugin_nested_ind. intros t.
  cbn [registerTree configureOrder onConfigure pid].
  rewrite pids_add. cbn [pid].
  assert (Hkids : forall t0,
            map pid (allPlugins (foldl (fun t q => registerTree q t) t0 qs)) ≡ₚ
              map pid (allPlugins t0) ++ flat_map configureOrder qs).
  { induction IH as [|q qs Hq _ IHqs]; intros t0.
    - simpl. now rewrite app_nil_r.
    - cbn [foldl flat_map]. rewrite IHqs, Hq, <- app_assoc. reflexivity. }
  rewrite Hkids. solve_Permutation.
Qed.

(** Draining while the gate is not ready: each plugin of the queue is
    configured and registered; what their [configure] adds lands on the
    queue. *)
Lemma drain_not_ready q : forall c,
  isStorageReady c = false ->
  foldl (fun c plugin => addPlugin plugin c) c q =
    set_timeline (registerAll q (timeline c))
      (set_pluginsToAdd (pluginsToAdd c ++ flat_map onConfigure q)
         (set_effects (effects c ++ configureAll q) c)).
Proof.
  induction q as [|p q IH]; intros c Hr.
  - simpl. rewrite !app_nil_r. destruct c; reflexivity.
  - cbn [foldl]. rewrite addPlugin_not_ready by exact Hr.
    rewrite IH by exact Hr. fields.
    change (registerAll (p :: q) (timeline c))
      with (registerAll q (Timeline.add p (timeline c))).
    change (configureAll (p :: q)) with (Configure (pid p) :: configureAll q).
    cbn [flat_map]. rewrite <- !app_assoc. destruct c; reflexivity.
Qed.

(** The readiness signal on a gate that is not ready, with something
    queued and no drain in progress. *)
Lemma onStorageReady_opens c :
  isStorageReady c = false ->
  isAddingPlugins c = false ->
  pluginsToAdd c <> [] ->
  onStorageReady true c =
    set_isStorageReady true
      (set_pluginsToAdd []
         (set_timeline (registerAll (pluginsToAdd c) (timeline c))
            (set_effects (effects c ++ configureAll (pluginsToAdd c)) c))).
Proof.
  intros Hr Ha Hq. unfold onStorageReady.
  rewrite Ha, (nonempty_length _ Hq). cbn [andb negb].
  rewrite drain_not_ready by exact Hr.
  unfold unsubscribeReadinessWatcher. destruct c; simpl in *; subst. reflexivity.
Qed.

Lemma pids_withoutPlugin (plugin : nat) (bucket : list Plugin) :
  map pid (Timeline.withoutPlugin plugin bucket) ⊆+ map pid bucket.
Proof.
  induction bucket as [|q bucket IH]; [reflexivity|].
  cbn [Timeline.withoutPlugin]. destruct (decide (pid q = plugin)).
  - cbn [map]. apply submseteq_cons. reflexivity.
  - cbn [map]. apply submseteq_skip, IH.
Qed.

(** [remove] takes entries out of the timeline and puts none in. *)
Lemma pids_remove (plugin : Plugin) (t : Timeline) :
  map pid (allPlugins (Timeline.remove plugin t)) ⊆+ map pid (allPlugins t).
Proof.
  unfold allPlugins, Timeline.remove.
  destruct (type plugin);
    cbn [Timeline.plugins beforePlugins enrichmentPlugins utilityPlugins
         destinationPlugins afterPlugins];
    rewrite !map_app;
    repeat first [reflexivity | apply pids_withoutPlugin | apply submseteq_app].
Qed.

Lemma call_settled k c : settled c -> settled (call k c).
Proof.
  intros (Ha & Hp & Hg & Hsub & Hs). unfold settled.
  destruct (isQuiet k) eqn:Hq.
  - destruct (quiet_calls k c Hq)
      as (Q1 & Q2 & Q3 & Q4 & Q5 & Q6 & Q7 & Q8 & Q9 & Q10 & Q11 & Q12 & Q13 & Q14 & Q15 & Q16).
    rewrite Q1, Q2, Q4, Q5, Q6, Q7, Q8, Q15. repeat split; try assumption; apply Hs.
  - destruct k as [plugin sett|isReady|ev|nm opt|nm opt|gid gtr|uid utr|nid|uu| | |evs|nxt|ctx|url| | | | |rp|qe|gone|pctx]; try discriminate; cbn [call].
    + (* add *)
      rewrite add_unfold.
      destruct (withSettings_fields plugin sett c)
        as (W1 & W2 & W3 & W4 & W5 & W6 & W7 & W8 & W9 & W10 & W11 & W12 & W13).
      destruct (isStorageReady c) eqn:Hr.
      * rewrite addPlugin_ready by congruence. fields.
        rewrite ?W1, ?W2, ?W4, ?W5, ?W6, ?W7, ?W8, ?W9, ?Hr.
        repeat split; try assumption; try apply Hs.
        rewrite configured_app, configured_Configure, pids_registerTree.
        apply submseteq_app; [exact Hsub|reflexivity].
      * fields. rewrite ?W1, ?W2, ?W4, ?W5, ?W6, ?W7, ?W8, ?W9, ?Hr.
        repeat split; try assumption; try apply Hs.
        intros E. apply app_eq_nil in E as [_ E]. discriminate.
    + (* the readiness signal *)
      destruct isReady;
        [|change (onStorageReady false c) with c;
          repeat split; try assumption; apply Hs].
      destruct (isStorageReady c) eqn:Hr.
      * unfold onStorageReady. rewrite Hg. cbn [length Nat.ltb Nat.leb andb].
        rewrite Hr. repeat split; try assumption; apply Hs.
      * rewrite onStorageReady_opens by assumption. fields.
        repeat split; try assumption; try apply Hs.
        rewrite configured_app, configured_configureAll, pids_registerAll.
        apply submseteq_app; [exact Hsub|reflexivity].
    + (* flush *)
      destruct (flush_fields c)
        as (F1 & F2 & F3 & F4 & F5 & F6 & F7 & F8 & F9 & F10 & F11 & F12 & F13 & F14 & F15 & F16 & F17).
      rewrite F1, F8, F9, F10, F11, F12, F14, flush_counter, Hp. cbn [orb].
      repeat split; try assumption; destruct (destroyed c); lia.
    + (* tick *)
      unfold tick.
      destruct (Z.geb_spec (secondsElapsed c + 1) (flushInterval (config c))).
      * destruct (flush_fields c)
          as (F1 & F2 & F3 & F4 & F5 & F6 & F7 & F8 & F9 & F10 & F11 & F12 & F13 & F14 & F15 & F16 & F17).
        rewrite F1, F8, F9, F10, F11, F12, F14, flush_counter, Hp. cbn [orb].
        repeat split; try assumption; destruct (destroyed c); lia.
      * fields. repeat split; try assumption; lia.
    + (* the buffer-size watcher *)
      unfold eventsWatcher.
      destruct (Z.of_nat (length evs) >=? flushAt (config c));
        [|repeat split; try assumption; apply Hs].
      destruct (flush_fields c)
        as (F1 & F2 & F3 & F4 & F5 & F6 & F7 & F8 & F9 & F10 & F11 & F12 & F13 & F14 & F15 & F16 & F17).
      rewrite F1, F8, F9, F10, F11, F12, F14, flush_counter, Hp. cbn [orb].
      repeat split; try assumption; destruct (destroyed c); lia.
    + unfold setupInterval. fields. repeat split; try assumption; apply Hs.
    + unfold setupStorageSubscribers. fields. repeat split; try assumption; apply Hs.
    + unfold setupLifecycleEvents. fields. repeat split; try assumption; apply Hs.
    + unfold cleanup, unsubscribeReadinessWatcher. fields.
      repeat split; try assumption; apply Hs.
    + (* remove *)
      unfold remove. fields. repeat split; try assumption; try apply Hs.
      etransitivity; [apply pids_remove|exact Hsub].
    + unfold queueEvent, events_add. fields.
      repeat split; try assumption; apply Hs.
    + unfold removeEvents, events_remove. fields.
      repeat split; try assumption; apply Hs.
Qed.

Lemma new_client_settled sd ic cfg st : settled (new_SegmentClient sd ic cfg st).
Proof.
  unfold settled, new_SegmentClient, platformPlugins, add, add_with.
  destruct (autoAddSegmentDestination cfg); cbn;
    repeat split; try discriminate; try reflexivity; lia.
Qed.

Lemma calls_settled ks : forall c, settled c -> settled (calls ks c).
Proof.
  induction ks as [|k ks IH]; intros c H; [exact H|].
  rewrite calls_cons. apply IH, call_settled, H.
Qed.

Lemma call_ready k c :
  isStorageReady c = true -> isStorageReady (call k c) = true.
Proof.
  intros Hr. destruct (isQuiet k) eqn:Hq.
  - destruct (quiet_calls k c Hq) as (_ & _ & _ & _ & _ & _ & Q7 & _). congruence.
  - destruct k as [plugin sett|isReady|ev|nm opt|nm opt|gid gtr|uid utr|nid|uu| | |evs|nxt|ctx|url| | | | |rp|qe|gone|pctx]; try discriminate; cbn [call].
    + rewrite add_unfold, Hr.
      destruct (addPlugin_fields plugin (withSettings plugin sett c))
        as (_ & _ & _ & _ & _ & _ & _ & A8 & _).
      destruct (withSettings_fields plugin sett c)
        as (_ & _ & _ & _ & _ & W6 & _).
      congruence.
    + unfold onStorageReady.
      destruct (isReady && (0 <? length (pluginsToAdd c))%nat && negb (isAddingPlugins c));
        [reflexivity|exact Hr].
    + destruct (flush_fields c) as (_ & _ & _ & _ & _ & _ & _ & _ & _ & _ & F11 & _).
      congruence.
    + unfold tick. destruct (secondsElapsed c + 1 >=? flushInterval (config c));
        [|exact Hr].
      destruct (flush_fields c) as (_ & _ & _ & _ & _ & _ & _ & _ & _ & _ & F11 & _).
      congruence.
    + unfold eventsWatcher.
      destruct (Z.of_nat (length evs) >=? flushAt (config c)); [|exact Hr].
      destruct (flush_fields c) as (_ & _ & _ & _ & _ & _ & _ & _ & _ & _ & F11 & _).
      congruence.
    + exact Hr.
    + exact Hr.
    + exact Hr.
    + exact Hr.
    + exact Hr.
    + exact Hr.
    + exact Hr.
Qed.

(** ** The gate, for every client a program can reach *)

(** X1: for a client built by the constructor and any sequence of calls on
    it, the gate is ready exactly when nothing is pending, and no drain is
    left in progress between calls.  The constructor queues the context
    plugin, a client that is not ready only ever adds to the queue, and the
    one statement that empties the queue is followed at once by the one
    that sets the ready flag. *)
Theorem gate_ready_iff_nothing_pending (sd ic : Plugin) (cfg : Config)
    (st : Storage) (ks : list Call) :
  let c := calls ks (new_SegmentClient sd ic cfg st) in
  (isStorageReady c = true <-> pluginsToAdd c = []) /\
  isAddingPlugins c = false.
Proof.
  cbv zeta.
  destruct (calls_settled ks _ (new_client_settled sd ic cfg st))
    as (Ha & _ & Hg & _).
  split; [|exact Ha].
  destruct (isStorageReady _); split; intros H; try assumption;
    try reflexivity; try discriminate.
  exfalso. exact (Hg H).
Qed.

(** X2: on every such client nothing is in the timeline that was not
    configured first: the plugins [getPlugins()] returns are, counted with
    multiplicity, among those on which [configure] was called.  [remove]
    takes plugins out of the timeline; nothing puts one in but
    [addPlugin], after its [configure]. *)
Theorem registered_were_configured (sd ic : Plugin) (cfg : Config)
    (st : Storage) (ks : list Call) :
  let c := calls ks (new_SegmentClient sd ic cfg st) in
  map pid (getPlugins None c) ⊆+ configured (effects c).
Proof.
  cbv zeta.
  destruct (calls_settled ks _ (new_client_settled sd ic cfg st))
    as (_ & _ & _ & Hsub & _).
  exact Hsub.
Qed.

(** X3: for a client built with a configuration that gives a flush
    interval [n] (the [Config] of this model holds the number), and any
    sequence of calls on it, the tick counter is at least 0 and below [n]
    (below 1 when [n] is not positive), and no flush is left in flight
    between calls, whatever the plugins threw. *)
Theorem counter_stays_below_interval (sd ic : Plugin) (cfg : Config)
    (st : Storage) (ks : list Call) (n : Z) :
  flushInterval cfg = n ->
  let c := calls ks (new_SegmentClient sd ic cfg st) in
  0 <= secondsElapsed c < Z.max 1 n /\
  isPendingUpload c = false.
Proof.
  intros Hn. cbv zeta.
  destruct (calls_settled ks _ (new_client_settled sd ic cfg st))
    as (_ & Hp & _ & _ & Hs).
  split; [|exact Hp].
  assert (Hcfg : forall ks c, config (calls ks c) = config c).
  { clear. induction ks as [|k ks IH]; intros c; [reflexivity|].
    rewrite calls_cons, IH. apply call_keeps. }
  rewrite Hcfg in Hs.
  replace (config (new_SegmentClient sd ic cfg st)) with cfg in Hs;
    [rewrite Hn in Hs; exact Hs|].
  unfold new_SegmentClient, platformPlugins, add, add_with.
  now destruct (autoAddSegmentDestination cfg).
Qed.

Lemma counter_stays_below_interval_witness :
  let c := calls [DoTick; DoQueueEvent (TrackEvent "Order Completed" None);
                  DoFlush; DoTick; DoTick]
             (new_SegmentClient segmentDestination injectContext sampleConfig
                (mockStore [])) in
  flushInterval sampleConfig = 30 /\
  0 <= secondsElapsed c < Z.max 1 30 /\ isPendingUpload c = false.
Proof.
  cbv zeta. split; [reflexivity|].
  apply (counter_stays_below_interval segmentDestination injectContext sampleConfig
           (mockStore [])
           [DoTick; DoQueueEvent (TrackEvent "Order Completed" None);
            DoFlush; DoTick; DoTick] 30).
  reflexivity.
Defined.

(** X4: once the gate is ready it stays ready: no call, and no plugin
    adding plugins from [configure], sets it back. *)
Theorem readiness_is_permanent (ks : list Call) (c : SegmentClient) :
  isStorageReady c = true -> isStorageReady (calls ks c) = true.
Proof.
  revert c. induction ks as [|k ks IH]; intros c Hr; [exact Hr|].
  rewrite calls_cons. apply IH, call_ready, Hr.
Qed.

Lemma readiness_is_permanent_witness :
  isStorageReady (readyClient []) = true /\
  isStorageReady
    (calls [DoAdd introducer None; DoStorageReady false; DoCleanup; DoTick]
       (readyClient [])) = true.
Proof.
  assert (H : isStorageReady (readyClient []) = true) by (vm_compute; reflexivity).
  split; [exact H|].
  apply (readiness_is_permanent
           [DoAdd introducer None; DoStorageReady false; DoCleanup; DoTick]
           (readyClient []) H).
Defined.



(** X6: the anonymous identifier is written by [reset] alone: any sequence
    of calls without a [reset] leaves it as it was. *)
Theorem anonymousId_is_stable (ks : list Call) (c : SegmentClient) :
  forallb (fun k => negb (isReset k)) ks = true ->
  anonymousId (userInfo (store (calls ks c))) = anonymousId (userInfo (store c)).
Proof.
  revert c. induction ks as [|k ks IH]; intros c H; [reflexivity|].
  cbn [forallb] in H. apply andb_prop in H as [Hk H].
  rewrite calls_cons, IH by exact H.
  destruct (call_keeps k c) as (_ & _ & _ & _ & Hid & _).
  destruct (isReset k); [discriminate|exact Hid].
Qed.

Lemma anonymousId_is_stable_witness :
  anonymousId (userInfo (store
    (calls [DoIdentify "u1" (Some traits_a1); DoAlias "u2"; DoFlush;
            DoAdd introducer (Some traits_a1)] testClient))) =
    anonymousId (userInfo (store testClient)).
Proof.
  apply (anonymousId_is_stable
           [DoIdentify "u1" (Some traits_a1); DoAlias "u2"; DoFlush;
            DoAdd introducer (Some traits_a1)] testClient).
  reflexivity.
Defined.

(** ** Adding plugins *)

(** X7: on a ready client [add] queues nothing.  The plugin's [configure]
    is called first; each plugin it adds goes through the whole of [add]
    in turn, depth first; the plugin itself is registered last, after
    everything its [configure] added. *)
Theorem add_when_ready (plugin : Plugin) (settings : option JsonMap)
    (c : SegmentClient) :
  isStorageReady c = true ->
  let c' := add plugin settings c in
  configured (effects c') = configured (effects c) ++ configureOrder plugin /\
  timeline c' = registerTree plugin (timeline c) /\
  pluginsToAdd c' = pluginsToAdd c /\
  isStorageReady c' = true.
Proof.
  intros Hr. cbv zeta. rewrite add_unfold, Hr.
  destruct (withSettings_fields plugin settings c)
    as (_ & _ & _ & _ & _ & W6 & W7 & W8 & W9 & _).
  rewrite addPlugin_ready by congruence. fields.
  rewrite configured_app, configured_Configure, W7, W8, W9, W6.
  repeat split. exact Hr.
Qed.

Lemma add_when_ready_witness :
  isStorageReady (readyClient []) = true /\
  configured (effects (add introducer None (readyClient []))) =
    configured (effects (readyClient [])) ++ [10; 11]%nat.
Proof.
  assert (H : isStorageReady (readyClient []) = true) by (vm_compute; reflexivity).
  split; [exact H|].
  apply (add_when_ready introducer None (readyClient []) H).
Defined.

(** X8: a true readiness signal on a gate that is not ready and has
    plugins queued opens it: the plugins queued when the signal arrived are
    configured and registered, one after the other in queue order, the
    queue ends empty and the gate ready.  Plugins handed to [add] by a
    [configure] during that drain are not among them.  (The plugins'
    [configure] returns normally and at most adds plugins, as everywhere
    in this model of the gate.) *)
Theorem signal_opens_the_gate (c : SegmentClient) :
  isStorageReady c = false ->
  isAddingPlugins c = false ->
  pluginsToAdd c <> [] ->
  let c' := onStorageReady true c in
  isStorageReady c' = true /\
  pluginsToAdd c' = [] /\
  isAddingPlugins c' = false /\
  configured (effects c') = configured (effects c) ++ map pid (pluginsToAdd c) /\
  timeline c' = registerAll (pluginsToAdd c) (timeline c).
Proof.
  intros Hr Ha Hq. cbv zeta. rewrite onStorageReady_opens by assumption. fields.
  rewrite configured_app, configured_configureAll. repeat split. exact Ha.
Qed.

Lemma signal_opens_the_gate_witness :
  (isStorageReady newClient = false /\ isAddingPlugins newClient = false /\
   pluginsToAdd newClient <> []) /\
  configured (effects (onStorageReady true newClient)) =
    configured (effects newClient) ++ map pid (pluginsToAdd newClient).
Proof.
  assert (H1 : isStorageReady newClient = false) by (vm_compute; reflexivity).
  assert (H2 : isAddingPlugins newClient = false) by (vm_compute; reflexivity).
  assert (H3 : pluginsToAdd newClient <> []) by (vm_compute; congruence).
  split; [repeat split; assumption|].
  apply (signal_opens_the_gate newClient H1 H2 H3).
Defined.

(** ** Before the readiness signal *)

Lemma addedBy_cons k ks : addedBy (k :: ks) = addedBy [k] ++ addedBy ks.
Proof. unfold addedBy. cbn [omap list_omap]. now destruct k. Qed.

Lemma remove_from_empty plugin : Timeline.remove plugin Timeline.empty = Timeline.empty.
Proof. unfold Timeline.remove, Timeline.empty. now destruct (type plugin). Qed.

(** One call other than a true readiness signal, on a client that is not
    ready and has an empty timeline. *)
Lemma call_before_ready k c :
  isReadySignal k = false ->
  isStorageReady c = false ->
  timeline c = Timeline.empty ->
  let c' := call k c in
  isStorageReady c' = false /\
  timeline c' = Timeline.empty /\
  configured (effects c') = configured (effects c) /\
  pluginsToAdd c' = pluginsToAdd c ++ addedBy [k].
Proof.
  intros Hk Hr Ht. cbv zeta. destruct (isQuiet k) eqn:Hq.
  - destruct (quiet_calls k c Hq)
      as (Q1 & Q2 & Q3 & Q4 & Q5 & Q6 & Q7 & Q8 & Q9 & Q10 & Q11 & Q12 & Q13 & Q14 & Q15 & Q16).
    rewrite Q6, Q7, Q8, Q15.
    destruct k as [plugin sett|isReady|ev|nm opt|nm opt|gid gtr|uid utr|nid|uu| | |evs|nxt|ctx|url| | | | |rp|qe|gone|pctx]; try discriminate;
      cbn [addedBy omap list_omap]; rewrite app_nil_r;
      repeat split; assumption.
  - destruct k as [plugin sett|isReady|ev|nm opt|nm opt|gid gtr|uid utr|nid|uu| | |evs|nxt|ctx|url| | | | |rp|qe|gone|pctx]; try discriminate;
      cbn [call addedBy omap list_omap]; rewrite ?app_nil_r.
    + (* add *)
      rewrite add_unfold, Hr. unfold withSettings.
      destruct sett as [s|]; [destruct (type plugin)|]; fields;
        repeat split; assumption.
    + (* a false signal *)
      destruct isReady; [discriminate|].
      change (onStorageReady false c) with c. repeat split; assumption.
    + destruct (flush_fields c)
        as (F1 & F2 & F3 & F4 & F5 & F6 & F7 & F8 & F9 & F10 & F11 & F12 & F13 & F14 & F15 & F16 & F17).
      rewrite F10, F11, F12, F14. repeat split; assumption.
    + unfold tick.
      destruct (flush_fields c)
        as (F1 & F2 & F3 & F4 & F5 & F6 & F7 & F8 & F9 & F10 & F11 & F12 & F13 & F14 & F15 & F16 & F17).
      destruct (secondsElapsed c + 1 >=? flushInterval (config c)).
      * rewrite F10, F11, F12, F14. repeat split; assumption.
      * fields. repeat split; assumption.
    + unfold eventsWatcher.
      destruct (flush_fields c)
        as (F1 & F2 & F3 & F4 & F5 & F6 & F7 & F8 & F9 & F10 & F11 & F12 & F13 & F14 & F15 & F16 & F17).
      destruct (Z.of_nat (length evs) >=? flushAt (config c)).
      * rewrite F10, F11, F12, F14. repeat split; assumption.
      * repeat split; assumption.
    + unfold setupInterval. fields. repeat split; assumption.
    + unfold setupStorageSubscribers. fields. repeat split; assumption.
    + unfold setupLifecycleEvents. fields. repeat split; assumption.
    + unfold cleanup, unsubscribeReadinessWatcher. fields. repeat split; assumption.
    + unfold remove. fields. rewrite Ht, remove_from_empty.
      repeat split; assumption.
    + unfold queueEvent, events_add. fields. repeat split; assumption.
    + unfold removeEvents, events_remove. fields. repeat split; assumption.
Qed.

Lemma calls_before_ready ks : forall c,
  forallb (fun k => negb (isReadySignal k)) ks = true ->
  isStorageReady c = false ->
  timeline c = Timeline.empty ->
  let c' := calls ks c in
  isStorageReady c' = false /\
  timeline c' = Timeline.empty /\
  configured (effects c') = configured (effects c) /\
  pluginsToAdd c' = pluginsToAdd c ++ addedBy ks.
Proof.
  induction ks as [|k ks IH]; intros c H Hr Ht; cbv zeta.
  - change (calls [] c) with c. cbn [addedBy omap list_omap].
    rewrite app_nil_r. repeat split; assumption.
  - cbn [forallb] in H. apply andb_prop in H as [Hk H].
    apply negb_true_iff in Hk.
    destruct (call_before_ready k c Hk Hr Ht) as (K1 & K2 & K3 & K4).
    destruct (IH (call k c) H K1 K2) as (I1 & I2 & I3 & I4).
    rewrite calls_cons, addedBy_cons.
    rewrite I3, I4, K3, K4, <- app_assoc.
    repeat split; assumption.
Qed.

(** X9: until the store has signalled readiness, no plugin code runs.  For
    a client built by the constructor and any sequence of calls without a
    true readiness signal, the gate is not ready, the queue holds the
    constructor's plugins followed by the plugins handed to [add] in call
    order, no [configure] has been called and the timeline is empty.  An
    [add] on such a client stores the settings it is given all the same,
    at once: under the plugin's key, replacing what was stored there, when
    the plugin is a destination; for a plugin of any other type they are
    dropped; nothing else in the stored settings changes. *)
Theorem before_readiness_add_only_queues (sd ic : Plugin) (cfg : Config)
    (st : Storage) (ks : list Call) :
  forallb (fun k => negb (isReadySignal k)) ks = true ->
  let c := calls ks (new_SegmentClient sd ic cfg st) in
  isStorageReady c = false /\
  pluginsToAdd c =
    (if autoAddSegmentDestination cfg then [sd] else []) ++ [ic] ++ addedBy ks /\
  configured (effects c) = [] /\
  getPlugins None c = [] /\
  (forall (plugin : Plugin) (settings' : option JsonMap),
     settings (store (add plugin settings' c)) =
       match settings', type plugin with
       | Some s, destination => <[key plugin := s]> (settings (store c))
       | _, _ => settings (store c)
       end).
Proof.
  intros H. cbv zeta.
  destruct (new_client_queue sd ic cfg st) as (Hr & _ & Hq & He).
  assert (Ht : timeline (new_SegmentClient sd ic cfg st) = Timeline.empty).
  { unfold new_SegmentClient, platformPlugins, add, add_with.
    now destruct (autoAddSegmentDestination cfg). }
  destruct (calls_before_ready ks _ H Hr Ht) as (I1 & I2 & I3 & I4).
  rewrite I3, I4, Hq, He, <- app_assoc.
  unfold getPlugins. rewrite I2. repeat split; [exact I1|].
  intros plugin settings'. rewrite add_unfold, I1. unfold withSettings.
  destruct settings' as [s|]; [destruct (type plugin)|]; reflexivity.
Qed.

Lemma before_readiness_add_only_queues_witness :
  let ks := [DoAdd failingDestination (Some traits_a0_b2); DoStorageReady false;
             DoTick; DoAdd introducer (Some traits_a1); DoFlush;
             DoRemove failingDestination] in
  let c := calls ks (new_SegmentClient segmentDestination injectContext
                       sampleConfig (mockStore [])) in
  pluginsToAdd c =
    [segmentDestination; injectContext; failingDestination; introducer] /\
  configured (effects c) = [] /\
  settings (store (add healthyDestination (Some traits_a1) c)) =
    <[ "Healthy" := traits_a1 ]> (settings (store c)).
Proof.
  cbv zeta.
  pose proof (before_readiness_add_only_queues segmentDestination injectContext
                sampleConfig (mockStore [])
                [DoAdd failingDestination (Some traits_a0_b2); DoStorageReady false;
                 DoTick; DoAdd introducer (Some traits_a1); DoFlush;
                 DoRemove failingDestination] eq_refl)
    as (_ & H2 & H3 & _ & H5).
  split; [exact H2|]. split; [exact H3|].
  exact (H5 healthyDestination (Some traits_a1)).
Defined.

(** ** The flush scheduler *)

(** X10: [flush()] itself writes nothing but the tick counter and the
    in-flight flag, and puts the flag back to what it was, also when a
    plugin threw: apart from the plugins' [flush] being called, the store
    with its buffered events, the timeline, the gate and the destroyed flag
    are as before, no event is handed to the timeline and nothing is
    logged. *)
Theorem flush_touches_counter_only (c : SegmentClient) :
  let c' := fst (flush c) in
  store c' = store c /\ timeline c' = timeline c /\ config c' = config c /\
  isPendingUpload c' = isPendingUpload c /\ destroyed c' = destroyed c /\
  isStorageReady c' = isStorageReady c /\ pluginsToAdd c' = pluginsToAdd c /\
  appState c' = appState c /\
  processed (effects c') = processed (effects c) /\
  logged (effects c') = logged (effects c) /\
  configured (effects c') = configured (effects c).
Proof.
  cbv zeta.
  destruct (flush_fields c)
    as (F1 & F2 & F3 & F4 & F5 & F6 & F7 & F8 & F9 & F10 & F11 & F12 & F13 & F14 & F15 & F16 & F17).
  repeat split; assumption.
Qed.

(** X11: with an empty buffer a [flush()] on a live client invokes no
    plugin, not even one that would throw; it resets the counter and the
    promise fulfils. *)
Theorem flush_with_empty_buffer (c : SegmentClient) :
  live c ->
  events (store c) = [] ->
  flush c = (set_secondsElapsed 0 c, Fulfilled).
Proof.
  intros [Hd Hp] He. rewrite flush_eq, Hp, Hd. unfold afterCycle.
  now rewrite He.
Qed.

Lemma flush_with_empty_buffer_witness :
  let c := add failingDestination None (ticks 3 (readyClient [])) in
  (live c /\ events (store c) = []) /\
  flush c = (set_secondsElapsed 0 c, Fulfilled).
Proof.
  cbv zeta.
  assert (H1 : live (add failingDestination None (ticks 3 (readyClient []))))
    by (split; vm_compute; reflexivity).
  assert (H2 : events (store (add failingDestination None (ticks 3 (readyClient [])))) = [])
    by (vm_compute; reflexivity).
  split; [split; assumption|].
  apply (flush_with_empty_buffer _ H1 H2).
Defined.

Lemma countTicks_cons k ks :
  countTicks (k :: ks) = ((if isTick k then 1 else 0) + countTicks ks)%nat.
Proof.
  unfold countTicks. rewrite filter_cons.
  destruct (isTick k); destruct (decide _); try congruence; reflexivity.
Qed.

(** A call that leaves the schedule to the timer and is not a tick leaves
    the counter, the two flags, the configuration and the record of
    delivery attempts as they were. *)
Lemma call_off_schedule k c :
  keepsSchedule (config c) k = true ->
  isTick k = false ->
  let c' := call k c in
  config c' = config c /\ secondsElapsed c' = secondsElapsed c /\
  destroyed c' = destroyed c /\ isPendingUpload c' = isPendingUpload c /\
  flushed (effects c') = flushed (effects c).
Proof.
  intros Hk Ht. cbv zeta. destruct (isQuiet k) eqn:Hq.
  - destruct (quiet_calls k c Hq)
      as (Q1 & Q2 & Q3 & Q4 & Q5 & Q6 & Q7 & Q8 & Q9 & Q10 & Q11 & Q12 & Q13 & Q14 & Q15 & Q16).
    repeat split; assumption.
  - destruct k as [plugin sett|isReady|ev|nm opt|nm opt|gid gtr|uid utr|nid|uu| | |evs|nxt|ctx|url| | | | |rp|qe|gone|pctx]; try discriminate; cbn [call].
    + destruct (add_fields plugin sett c)
        as (A1 & A2 & A3 & A4 & A5 & A6 & A7 & A8 & A9 & A10 & A11).
      repeat split; assumption.
    + destruct (onStorageReady_fields isReady c)
        as (A1 & A2 & A3 & A4 & A5 & A6 & A7 & A8 & A9).
      repeat split; assumption.
    + unfold eventsWatcher. cbn [keepsSchedule] in Hk.
      destruct (Z.geb_spec (Z.of_nat (length evs)) (flushAt (config c))) as [Hge|Hlt];
        [apply Z.ltb_lt in Hk; lia|repeat split].
    + unfold setupInterval. fields. repeat split.
    + unfold setupStorageSubscribers. fields. repeat split.
    + unfold setupLifecycleEvents. fields. repeat split.
    + unfold remove. fields. repeat split.
    + unfold queueEvent, events_add. fields. repeat split.
    + unfold removeEvents, events_remove. fields. repeat split.
Qed.

Lemma schedule_state (n : Z) (ks : list Call) : forall c : SegmentClient,
  live c -> 1 <= n -> flushInterval (config c) = n ->
  0 <= secondsElapsed c < n ->
  forallb (keepsSchedule (config c)) ks = true ->
  let c' := calls ks c in
  let elapsed := secondsElapsed c + Z.of_nat (countTicks ks) in
  secondsElapsed c' = elapsed mod n /\
  live c' /\
  (elapsed < n -> flushed (effects c') = flushed (effects c)).
Proof.
  induction ks as [|k ks IH]; intros c Hl Hn Hcfg Hs Hks; cbv zeta.
  - change (calls [] c) with c. change (countTicks []) with 0%nat.
    rewrite Z.add_0_r, Z.mod_small by lia. repeat split; apply Hl.
  - cbn [forallb] in Hks. apply andb_prop in Hks as [Hk Hks].
    rewrite calls_cons, countTicks_cons.
    destruct (isTick k) eqn:Ht.
    + destruct k as [plugin sett|isReady|ev|nm opt|nm opt|gid gtr|uid utr|nid|uu| | |evs|nxt|ctx|url| | | | |rp|qe|gone|pctx]; try discriminate.
      cbn [call]. unfold tick. rewrite Hcfg.
      destruct Hl as [Hd Hp].
      destruct (Z.geb_spec (secondsElapsed c + 1) n) as [Hge|Hlt].
      * (* the counter wraps: one flush *)
        destruct (flush_fields c)
          as (F1 & F2 & F3 & F4 & F5 & F6 & F7 & F8 & F9 & F10 & F11 & F12 & F13 & F14 & F15 & F16 & F17).
        assert (H0 : secondsElapsed (fst (flush c)) = 0)
          by (rewrite flush_counter, Hp, Hd; reflexivity).
        destruct (IH (fst (flush c))) as (I1 & I2 & _).
        { split; congruence. }
        { exact Hn. }
        { congruence. }
        { lia. }
        { now rewrite F1. }
        rewrite I1, H0.
        replace (secondsElapsed c + Z.of_nat (1 + countTicks ks))
          with (Z.of_nat (countTicks ks) + 1 * n) by lia.
        rewrite Z.mod_add by lia. rewrite Z.add_0_l.
        split; [reflexivity|]. split; [exact I2|]. intros Hlt. lia.
      * (* the counter counts *)
        destruct (IH (set_secondsElapsed (secondsElapsed c + 1) c)) as (I1 & I2 & I3).
        { split; assumption. }
        { exact Hn. }
        { exact Hcfg. }
        { cbn [secondsElapsed set_secondsElapsed]. lia. }
        { exact Hks. }
        cbn [secondsElapsed set_secondsElapsed effects] in I1, I3.
        rewrite I1.
        replace (secondsElapsed c + Z.of_nat (1 + countTicks ks))
          with (secondsElapsed c + 1 + Z.of_nat (countTicks ks)) by lia.
        split; [reflexivity|]. split; [exact I2|exact I3].
    + destruct (call_off_schedule k c Hk Ht) as (K1 & K2 & K3 & K4 & K5).
      destruct Hl as [Hd Hp].
      destruct (IH (call k c)) as (I1 & I2 & I3).
      { split; congruence. }
      { exact Hn. }
      { congruence. }
      { lia. }
      { now rewrite K1. }
      rewrite I1, K2. cbn [Nat.add].
      split; [reflexivity|]. split; [exact I2|].
      intros Hlt. rewrite I3, K5 by (rewrite K2; exact Hlt). reflexivity.
Qed.

(** X12: the timer keeps its period whatever happens to the buffer.  On a
    live client with flush interval [n >= 1], let ticks be interleaved with
    any calls that leave the schedule to the timer: events queued and
    removed, plugins removed or added (their [configure] at most adding
    plugins), events tracked, the user identified or reset, notifications
    of a buffer below [flushAt]; anything but a manual flush, a
    size-triggered flush and [cleanup].  After [k] ticks
    the counter is the start value plus [k] modulo [n], the client is still
    live, and as long as the start value plus [k] is below [n] no plugin's
    [flush] has been called. *)
Theorem ticks_are_periodic (n : Z) (ks : list Call) (c : SegmentClient) :
  live c -> 1 <= n -> flushInterval (config c) = n ->
  0 <= secondsElapsed c < n ->
  forallb (keepsSchedule (config c)) ks = true ->
  let c' := calls ks c in
  let elapsed := secondsElapsed c + Z.of_nat (countTicks ks) in
  secondsElapsed c' = elapsed mod n /\
  live c' /\
  (elapsed < n -> flushed (effects c') = flushed (effects c)).
Proof. intros Hl Hn Hcfg Hs Hks. now apply schedule_state. Qed.

Lemma ticks_are_periodic_witness :
  let c := clientWithFailingDestination in
  let ks := replicate 20 DoTick ++
            [DoRemoveEvents [0%nat]; DoQueueEvent (ScreenEvent "Home" None)] ++
            replicate 45 DoTick in
  (live c /\ 1 <= 30 /\ flushInterval (config c) = 30 /\
   0 <= secondsElapsed c < 30 /\ forallb (keepsSchedule (config c)) ks = true) /\
  secondsElapsed (calls ks c) = 5.
Proof.
  cbv zeta.
  assert (Hl : live clientWithFailingDestination) by (split; vm_compute; reflexivity).
  assert (Hc : flushInterval (config clientWithFailingDestination) = 30)
    by (vm_compute; reflexivity).
  assert (Hs : 0 <= secondsElapsed clientWithFailingDestination < 30)
    by (vm_compute; split; congruence).
  assert (Hk : forallb (keepsSchedule (config clientWithFailingDestination))
                 (replicate 20 DoTick ++
                  [DoRemoveEvents [0%nat]; DoQueueEvent (ScreenEvent "Home" None)] ++
                  replicate 45 DoTick) = true)
    by (vm_compute; reflexivity).
  pose proof (ticks_are_periodic 30 _ clientWithFailingDestination
                Hl ltac:(lia) Hc Hs Hk) as (H1 & _).
  split; [repeat split; try assumption; try lia; apply Hs|].
  rewrite H1. vm_compute. reflexivity.
Defined.

(** ** Events and identity *)

(** X13: calls to [process], [track], [screen] and [group] reach the
    timeline in call order, one event per call, each carrying the arguments
    of its call. *)
Theorem events_in_call_order (ks : list Call) (c : SegmentClient) :
  forallb (fun k => bool_decide (is_Some (plainEvent k))) ks = true ->
  processed (effects (calls ks c)) = processed (effects c) ++ omap plainEvent ks.
Proof.
  revert c. induction ks as [|k ks IH]; intros c H.
  - simpl. now rewrite app_nil_r.
  - cbn [forallb] in H. apply andb_prop in H as [Hk H].
    rewrite calls_cons, (IH (call k c) H).
    apply bool_decide_eq_true_1 in Hk as [e He].
    destruct k as [plugin sett|isReady|ev|nm opt|nm opt|gid gtr|uid utr|nid|uu| | |evs|nxt|ctx|url| | | | |rp|qe|gone|pctx];
      try discriminate; injection He as <-;
      cbn [omap list_omap plainEvent call]; unfold_ops; read_effects;
      rewrite <- ?app_assoc; reflexivity.
Qed.

Lemma events_in_call_order_witness :
  processed (effects (calls [DoTrack "Order Completed" None; DoScreen "Home" None;
                             DoGroup "g1" (Some traits_a1)] testClient)) =
    processed (effects testClient) ++
      [TrackEvent "Order Completed" None; ScreenEvent "Home" None;
       GroupEvent "g1" (Some traits_a1)].
Proof.
  apply (events_in_call_order
           [DoTrack "Order Completed" None; DoScreen "Home" None;
            DoGroup "g1" (Some traits_a1)] testClient).
  reflexivity.
Defined.

(** X14: after [reset()], nothing of the previous user is left for the next
    [identify]: the stored traits and the traits of the identify event are
    exactly the ones passed (none when none are passed), under the new
    anonymous identifier. *)
Theorem reset_then_identify (uuid newId : string) (userTraits : option JsonMap)
    (c : SegmentClient) :
  let c' := identify newId userTraits (reset uuid c) in
  userInfo (store c') =
    {| anonymousId := uuid; userId := Some newId;
       traits := Some (spread userTraits) |} /\
  processed (effects c') = processed (effects c) ++ [IdentifyEvent (spread userTraits)].
Proof.
  cbv zeta. unfold_ops. read_effects. unfold spread2.
  change (spread None) with (∅ : JsonMap).
  rewrite !(right_id_L (∅ : JsonMap) (∪)). split; reflexivity.
Qed.

Lemma spread2_twice (t0 t : option JsonMap) :
  spread2 (Some (spread2 t0 t)) t = spread2 t0 t.
Proof.
  unfold spread2. change (spread (Some (spread t ∪ spread t0)))
    with (spread t ∪ spread t0).
  apply map_eq. intros k. rewrite !lookup_union.
  destruct (spread t !! k), (spread t0 !! k); reflexivity.
Qed.

(** X15: the store is idempotent under [identify]: repeating a call leaves
    the stored user info as the first call left it (the event is
    dispatched again); and a call without traits changes no stored trait,
    though it turns absent traits into an empty object. *)
Theorem identify_again_changes_nothing (newId : string)
    (userTraits : option JsonMap) (c : SegmentClient) :
  userInfo (store (identify newId userTraits (identify newId userTraits c))) =
    userInfo (store (identify newId userTraits c)) /\
  traits (userInfo (store (identify newId None c))) =
    Some (spread (traits (userInfo (store c)))).
Proof.
  split.
  - rewrite !identify_store. cbn [anonymousId userId traits].
    now rewrite spread2_twice.
  - rewrite identify_store. cbn [traits]. unfold spread2.
    change (spread None) with (∅ : JsonMap).
    now rewrite (left_id_L (∅ : JsonMap) (∪)).
Qed.

(** X16: aliases chain: after [alias(a)] then [alias(b)] the second alias
    event names [a] as the old user id, both events carry the same
    anonymous id, the stored user id is [b], and the traits are
    untouched. *)
Theorem alias_twice_chains (a b : string) (c : SegmentClient) :
  let prior := userInfo (store c) in
  let c' := alias b (alias a c) in
  processed (effects c') =
    processed (effects c) ++
      [AliasEvent (anonymousId prior) (userId prior) a;
       AliasEvent (anonymousId prior) (Some a) b] /\
  userInfo (store c') =
    {| anonymousId := anonymousId prior; userId := Some b;
       traits := traits prior |}.
Proof.
  cbv zeta. unfold_ops. read_effects. rewrite <- ?app_assoc.
  split; reflexivity.
Qed.

(** The reducers of the user-info slice each write one field and
    leave the others: [setTraits] replaces the traits instead of merging
    them (with no payload it stores an empty object), a later write of a
    field wins, writes of different fields commute, and [reset] forgets the
    whole previous state. *)
Lemma userInfo_reducers_compose (s s' : UserInfoState) (t1 t2 : option JsonMap)
    (u1 u2 : option string) (a uuid : string) :
  userInfoSlice.setTraits t2 (userInfoSlice.setTraits t1 s) =
    userInfoSlice.setTraits t2 s /\
  traits (userInfoSlice.setTraits None s) = Some ∅ /\
  userInfoSlice.setUserId u2 (userInfoSlice.setUserId u1 s) =
    userInfoSlice.setUserId u2 s /\
  userInfoSlice.setUserId u1 (userInfoSlice.setTraits t1 s) =
    userInfoSlice.setTraits t1 (userInfoSlice.setUserId u1 s) /\
  userInfoSlice.setAnonymousId a (userInfoSlice.setUserId u1 (userInfoSlice.setTraits t1 s)) =
    userInfoSlice.setTraits t1 (userInfoSlice.setUserId u1 (userInfoSlice.setAnonymousId a s)) /\
  userInfoSlice.reset uuid s = userInfoSlice.reset uuid s' /\
  userInfoSlice.setUserId u1 (userInfoSlice.setTraits t1 (userInfoSlice.reset uuid s)) =
    {| anonymousId := uuid; userId := u1; traits := Some (spread t1) |}.
Proof. repeat split. Qed.

(** ** The lifecycle tracker over time *)

Lemma calls_keep_context ks : forall c,
  forallb (fun k => negb (writesContext k)) ks = true ->
  context (store (calls ks c)) = context (store c) /\
  config (calls ks c) = config c.
Proof.
  induction ks as [|k ks IH]; intros c H; [split; reflexivity|].
  cbn [forallb] in H. apply andb_prop in H as [Hk H].
  rewrite calls_cons. destruct (IH (call k c) H) as [I1 I2].
  destruct (call_keeps k c) as (K1 & _ & _ & _ & _ & K6).
  destruct (writesContext k); [discriminate|].
  split; congruence.
Qed.

Lemma checkInstalledVersion_after (first later : Context) (c : SegmentClient) :
  context (store c) = Some (asPartial first) ->
  processed (effects (checkInstalledVersion later c)) =
    processed (effects c) ++
      (if trackAppLifecycleEvents (config c) then
         if decide (version (app first) = version (app later))
         then [applicationOpened false (JString (version (app later)))
                 (JString (build (app later)))]
         else [applicationUpdated later
                 {| Partial.version := Some (version (app first));
                    Partial.build := Some (build (app first)) |};
               applicationOpened false (JString (version (app later)))
                 (JString (build (app later)))]
       else []) /\
  context (store (checkInstalledVersion later c)) = Some (asPartial later).
Proof.
  intros Hctx.
  unfold checkInstalledVersion, context_get, context_set, applicationUpdated,
    applicationOpened.
  rewrite Hctx. fields.
  destruct (trackAppLifecycleEvents (config c)); cbn [negb];
    [|rewrite app_nil_r; split; reflexivity].
  cbn [mbind option_bind asPartial Partial.app Partial.version Partial.build].
  destruct (decide (Some (version (app later)) <> Some (version (app first)))) as [Hne|Heq];
    destruct (decide (version (app first) = version (app later))) as [He|Hn];
    try (exfalso; congruence);
    try (exfalso; apply Heq; intros E; injection E as E; congruence);
    unfold_ops; read_effects; rewrite <- ?app_assoc; split; reflexivity.
Qed.

(** X17: once a startup check has run, a later one never emits Application
    Installed, whatever was called in between short of a write to the
    stored context (another startup check, or the context setter): it
    emits Application Updated, carrying the version and build stored by the
    earlier check, exactly when the version differs, then Application
    Opened.  A change of build alone is not an update. *)
Theorem later_startup_check (first later : Context) (ks : list Call)
    (c : SegmentClient) :
  forallb (fun k => negb (writesContext k)) ks = true ->
  let c1 := calls ks (checkInstalledVersion first c) in
  let c2 := checkInstalledVersion later c1 in
  processed (effects c2) =
    processed (effects c1) ++
      (if trackAppLifecycleEvents (config c) then
         if decide (version (app first) = version (app later))
         then [applicationOpened false (JString (version (app later)))
                 (JString (build (app later)))]
         else [applicationUpdated later
                 {| Partial.version := Some (version (app first));
                    Partial.build := Some (build (app first)) |};
               applicationOpened false (JString (version (app later)))
                 (JString (build (app later)))]
       else []) /\
  context_get c2 = Some (asPartial later).
Proof.
  intros H. cbv zeta.
  destruct (calls_keep_context ks (checkInstalledVersion first c) H) as [Hctx Hcfg].
  assert (Hc0 : config (checkInstalledVersion first c) = config c)
    by (apply (call_keeps (DoCheckInstalledVersion first) c)).
  assert (Hs0 : context (store (checkInstalledVersion first c)) = Some (asPartial first)).
  { unfold checkInstalledVersion, context_get, context_set, process, logger_info.
    repeat case_match; reflexivity. }
  rewrite Hs0 in Hctx.
  destruct (checkInstalledVersion_after first later _ Hctx) as [H1 H2].
  rewrite H1, Hcfg, Hc0. split; [reflexivity|exact H2].
Qed.

Lemma later_startup_check_witness :
  let v1 := {| app := {| version := "1.0"; build := "7" |} |} in
  let v2 := {| app := {| version := "1.0"; build := "8" |} |} in
  let c1 := calls [DoTrack "Order Completed" None; DoAppStateChange active]
              (checkInstalledVersion v1 testClient) in
  processed (effects (checkInstalledVersion v2 c1)) =
    processed (effects c1) ++ [applicationOpened false (JString "1.0") (JString "8")].
Proof.
  cbv zeta.
  apply (later_startup_check
           {| app := {| version := "1.0"; build := "7" |} |}
           {| app := {| version := "1.0"; build := "8" |} |}
           [DoTrack "Order Completed" None; DoAppStateChange active] testClient).
  reflexivity.
Defined.

Lemma handleAppStateChange_processed (next : AppStateStatus) (c : SegmentClient) :
  trackAppLifecycleEvents (config c) = true ->
  processed (effects (handleAppStateChange next c)) =
    processed (effects c) ++ transitionEvents (appState c) next (context_get c) /\
  appState (handleAppStateChange next c) = next /\
  config (handleAppStateChange next c) = config c /\
  context_get (handleAppStateChange next c) = context_get c.
Proof.
  intros Hon.
  unfold handleAppStateChange, transitionEvents, applicationOpened,
    applicationBackgrounded, context_get.
  rewrite Hon.
  destruct (appState c), next;
    cbn [inactive_or_background andb];
    rewrite ?bool_decide_eq_true_2 by reflexivity;
    rewrite ?bool_decide_eq_false_2 by discriminate;
    cbn [andb]; unfold_ops; read_effects;
    rewrite <- ?app_assoc; repeat split.
Qed.


Lemma signals_trace l : forall c,
  trackAppLifecycleEvents (config c) = true ->
  processed (effects (signals l c)) =
    processed (effects c) ++ lifecycleTrace (appState c) l (context_get c) /\
  appState (signals l c) = default (appState c) (last l).
Proof.
  induction l as [|s l IH]; intros c Hon.
  - simpl. rewrite app_nil_r. split; reflexivity.
  - change (signals (s :: l) c) with (signals l (handleAppStateChange s c)).
    destruct (handleAppStateChange_processed s c Hon) as (H1 & H2 & H3 & H4).
    destruct (IH (handleAppStateChange s c)) as [I1 I2]; [congruence|].
    rewrite I1, I2, H1, H2, H4. cbn [lifecycleTrace].
    rewrite <- app_assoc, last_cons. split; [reflexivity|].
    destruct (last l); reflexivity.
Qed.

Lemma countNamed_app n l1 l2 :
  countNamed n (l1 ++ l2) = (countNamed n l1 + countNamed n l2)%nat.
Proof. unfold countNamed. now rewrite filter_app, length_app. Qed.

Lemma transition_balance (from to : AppStateStatus) stored :
  reported from = true -> reported to = true ->
  (countNamed "Application Backgrounded" (transitionEvents from to stored) + away from =
   countNamed "Application Opened" (transitionEvents from to stored) + away to)%nat.
Proof.
  destruct from, to; try discriminate; intros _ _; vm_compute; reflexivity.
Qed.

Lemma trace_balance stored l : forall from,
  reported from = true -> forallb reported l = true ->
  (countNamed "Application Backgrounded" (lifecycleTrace from l stored) + away from =
   countNamed "Application Opened" (lifecycleTrace from l stored) +
     away (default from (last l)))%nat.
Proof.
  induction l as [|to l IH]; intros from Hf Hl; [reflexivity|].
  cbn [forallb] in Hl. apply andb_prop in Hl as [Ht Hl].
  cbn [lifecycleTrace]. rewrite !countNamed_app, last_cons.
  pose proof (transition_balance from to stored Hf Ht) as H1.
  pose proof (IH to Ht Hl) as H2.
  replace (default from (match last l with Some y => Some y | None => Some to end))
    with (default to (last l)) by (destruct (last l); reflexivity).
  lia.
Qed.

(** X18: over any run of platform signals (active, inactive, background)
    with lifecycle tracking on, Application Opened and Application
    Backgrounded keep in step with the tracker's state: the number of
    Backgrounded events exceeds the number of Opened events by one exactly
    when the run took the app from the foreground to the background, and
    the other way round; a move between inactive and background adds
    neither.  The tracker ends in the state of the last signal. *)
Theorem lifecycle_events_balance (l : list AppStateStatus) (c : SegmentClient) :
  trackAppLifecycleEvents (config c) = true ->
  reported (appState c) = true ->
  forallb reported l = true ->
  let c' := signals l c in
  let emitted := lifecycleTrace (appState c) l (context_get c) in
  processed (effects c') = processed (effects c) ++ emitted /\
  appState c' = default (appState c) (last l) /\
  (countNamed "Application Backgrounded" emitted + away (appState c) =
   countNamed "Application Opened" emitted + away (appState c'))%nat.
Proof.
  intros Hon Hs Hl. cbv zeta.
  destruct (signals_trace l c Hon) as [H1 H2].
  split; [exact H1|]. split; [exact H2|].
  rewrite H2. apply trace_balance; assumption.
Qed.

Lemma lifecycle_events_balance_witness :
  let l := [active; inactive; background; active; inactive] in
  (trackAppLifecycleEvents (config backgroundedClient) = true /\
   reported (appState backgroundedClient) = true /\ forallb reported l = true) /\
  (countNamed "Application Backgrounded"
     (lifecycleTrace (appState backgroundedClient) l (context_get backgroundedClient)) +
   away (appState backgroundedClient) =
   countNamed "Application Opened"
     (lifecycleTrace (appState backgroundedClient) l (context_get backgroundedClient)) +
   away (appState (signals l backgroundedClient)))%nat.
Proof.
  cbv zeta.
  assert (H1 : trackAppLifecycleEvents (config backgroundedClient) = true)
    by (vm_compute; reflexivity).
  assert (H2 : reported (appState backgroundedClient) = true)
    by (vm_compute; reflexivity).
  split; [repeat split; assumption|].
  apply (lifecycle_events_balance [active; inactive; background; active; inactive]
           backgroundedClient H1 H2 eq_refl).
Defined.

(** X19: a return to the foreground after a startup check reports the
    version and build that check stored, whatever was called in between
    short of a write to the stored context (another startup check, or the
    context setter): the Application Opened event with
    [from_background = true] carries no undefined version then. *)
Theorem opened_reports_stored_version (current : Context) (ks : list Call)
    (c : SegmentClient) :
  forallb (fun k => negb (writesContext k)) ks = true ->
  trackAppLifecycleEvents (config c) = true ->
  let c1 := calls ks (checkInstalledVersion current c) in
  inactive_or_background (appState c1) = true ->
  processed (effects (handleAppStateChange active c1)) =
    processed (effects c1) ++
      [applicationOpened true (JString (version (app current)))
         (JString (build (app current)))].
Proof.
  intros H Hon. cbv zeta. intros Hbg.
  destruct (calls_keep_context ks (checkInstalledVersion current c) H) as [Hctx Hcfg].
  assert (Hc0 : config (checkInstalledVersion current c) = config c)
    by (apply (call_keeps (DoCheckInstalledVersion current) c)).
  assert (Hs0 : context (store (checkInstalledVersion current c)) = Some (asPartial current)).
  { unfold checkInstalledVersion, context_get, context_set, process, logger_info.
    repeat case_match; reflexivity. }
  rewrite Hs0 in Hctx.
  destruct (handleAppStateChange_processed active
              (calls ks (checkInstalledVersion current c))) as (H1 & _);
    [congruence|].
  rewrite H1. f_equal. unfold transitionEvents, context_get. rewrite Hctx.
  destruct (appState (calls ks (checkInstalledVersion current c)));
    try discriminate; reflexivity.
Qed.

Lemma opened_reports_stored_version_witness :
  let current := {| app := {| version := "1.0"; build := "7" |} |} in
  let ks := [DoAppStateChange active; DoTrack "Order Completed" None;
             DoAppStateChange background] in
  let c1 := calls ks (checkInstalledVersion current testClient) in
  inactive_or_background (appState c1) = true /\
  processed (effects (handleAppStateChange active c1)) =
    processed (effects c1) ++ [applicationOpened true (JString "1.0") (JString "7")].
Proof.
  cbv zeta.
  assert (Hbg : inactive_or_background
                  (appState (calls [DoAppStateChange active;
                                    DoTrack "Order Completed" None;
                                    DoAppStateChange background]
                               (checkInstalledVersion
                                  {| app := {| version := "1.0"; build := "7" |} |}
                                  testClient))) = true)
    by (vm_compute; reflexivity).
  split; [exact Hbg|].
  apply (opened_reports_stored_version
           {| app := {| version := "1.0"; build := "7" |} |}
           [DoAppStateChange active; DoTrack "Order Completed" None;
            DoAppStateChange background] testClient eq_refl eq_refl Hbg).
Defined.

(** The deep-link check hands the timeline one Deep Link Opened event
    carrying the launch URL when the platform reports a non-empty URL and
    deep-link tracking is configured; with no URL, an empty URL or the
    option off it leaves the client exactly as it was. *)
Lemma deep_link_needs_url_and_option (url : option string) (c : SegmentClient) :
  let c' := client_trackDeepLinks url c in
  match url with
  | Some (String a s) =>
      if trackDeepLinks (config c)
      then processed (effects c') =
             processed (effects c) ++
               [TrackEvent "Deep Link Opened"
                  (Some (list_to_map [("url", JString (String a s))]))] /\
           store c' = store c
      else c' = c
  | _ => c' = c
  end.
Proof.
  cbv zeta. unfold client_trackDeepLinks, getConfig.
  destruct url as [[|a s]|]; cbn [truthy andb]; try reflexivity.
  destruct (trackDeepLinks (config c)); [|reflexivity].
  unfold_ops. read_effects. rewrite <- ?app_assoc. split; reflexivity.
Qed.
